(** * scripts/add_license_header.py: the license header injector

    A shallow embedding of [add_license_header.py] and the proofs of its
    specification.  The script is modelled on a POSIX host
    ([os.linesep] is a line feed, [pathlib.Path] is a [PurePosixPath]):

    - a Python [str] is a list of Unicode code points ([Z]);
    - a file on disk is a list of bytes ([ascii], eight bits each);
    - [open(..., encoding='utf-8')] goes through a strict UTF-8 codec and,
      on reading, through universal-newline translation;
    - the file system and the log of I/O operations are threaded through a
      small state-and-exception monad. *)

From Stdlib Require Import ZArith Ascii String List Lia Bool.
From stdpp Require Import gmap strings list.

Local Open Scope Z_scope.

(** ** Bytes and code points *)

Definition byte_val (b : ascii) : Z := Z.of_N (N_of_ascii b).
Definition byte_of (z : Z) : ascii := ascii_of_N (Z.to_N z).

(** The text of an ASCII literal of the source, as a Python [str]. *)
Definition py_str (s : string) : list Z := map byte_val (list_ascii_of_string s).

(** The bytes of an ASCII literal. *)
Definition bytes_lit (s : string) : list ascii := list_ascii_of_string s.

(** ** The strict UTF-8 codec behind [encoding='utf-8'] *)

Module Utf8.

Definition is_cont (b : Z) : bool := (0x80 <=? b) && (b <=? 0xBF).

(** Unicode scalar values: what a Python [str] may hold and encode. *)
Definition is_scalar (c : Z) : bool :=
  (0 <=? c) && (c <=? 0x10FFFF) && negb ((0xD800 <=? c) && (c <=? 0xDFFF)).

Definition encode_char (c : Z) : option (list Z) :=
  if negb (is_scalar c) then None
  else if c <? 0x80 then Some [c]
  else if c <? 0x800 then Some [0xC0 + c / 64; 0x80 + c mod 64]
  else if c <? 0x10000 then
    Some [0xE0 + c / 4096; 0x80 + (c / 64) mod 64; 0x80 + c mod 64]
  else
    Some [0xF0 + c / 262144; 0x80 + (c / 4096) mod 64;
          0x80 + (c / 64) mod 64; 0x80 + c mod 64].

Fixpoint encode_z (t : list Z) : option (list Z) :=
  match t with
  | [] => Some []
  | c :: r =>
    match encode_char c, encode_z r with
    | Some bs, Some rs => Some (bs ++ rs)
    | _, _ => None
    end
  end.

(** Strict decoding: overlong forms, surrogates, values above U+10FFFF,
    stray continuation bytes and truncated sequences are all rejected. *)
Fixpoint decode_z (bs : list Z) : option (list Z) :=
  match bs with
  | [] => Some []
  | b0 :: r0 =>
    if (0 <=? b0) && (b0 <? 0x80) then cons b0 <$> decode_z r0
    else
      match r0 with
      | [] => None
      | b1 :: r1 =>
        if (0xC0 <=? b0) && (b0 <? 0xE0) then
          let c := (b0 - 0xC0) * 64 + (b1 - 0x80) in
          if is_cont b1 && (0x80 <=? c) then cons c <$> decode_z r1
          else None
        else
          match r1 with
          | [] => None
          | b2 :: r2 =>
            if (0xE0 <=? b0) && (b0 <? 0xF0) then
              let c := (b0 - 0xE0) * 4096 + (b1 - 0x80) * 64 + (b2 - 0x80) in
              if is_cont b1 && is_cont b2 && (0x800 <=? c) && is_scalar c
              then cons c <$> decode_z r2
              else None
            else
              match r2 with
              | [] => None
              | b3 :: r3 =>
                if (0xF0 <=? b0) && (b0 <? 0xF8) then
                  let c := (b0 - 0xF0) * 262144 + (b1 - 0x80) * 4096
                           + (b2 - 0x80) * 64 + (b3 - 0x80) in
                  if is_cont b1 && is_cont b2 && is_cont b3
                     && (0x10000 <=? c) && is_scalar c
                  then cons c <$> decode_z r3
                  else None
                else None
              end
          end
      end
  end.

(** [bytes.decode('utf-8')] and [str.encode('utf-8')]. *)
Definition decode (bs : list ascii) : option (list Z) :=
  decode_z (map byte_val bs).

Definition encode (t : list Z) : option (list ascii) :=
  map byte_of <$> encode_z t.

End Utf8.

(** ** Text operations of the Python runtime used by the script *)

Definition LF : Z := 10.
Definition CR : Z := 13.

(** Universal-newline translation of [open(..., 'r')] with the default
    [newline=None]: every ["\r\n"] and every lone ["\r"] is read as ["\n"]. *)
Fixpoint translate_newlines (t : list Z) : list Z :=
  match t with
  | [] => []
  | c :: r =>
    if c =? CR then
      LF :: match r with
            | [] => []
            | c' :: r' =>
              if c' =? LF then translate_newlines r' else translate_newlines r
            end
    else c :: translate_newlines r
  end.

(** Splitting a translated text into lines, each keeping its ["\n"];
    only the last line may lack one. *)
Fixpoint split_lines (t : list Z) : list (list Z) :=
  match t with
  | [] => []
  | c :: r =>
    if c =? LF then [c] :: split_lines r
    else
      match split_lines r with
      | [] => [[c]]
      | l :: ls => (c :: l) :: ls
      end
  end.

(** [s.startswith(pat)] and [pat in s]. *)
Fixpoint starts_with (pat s : list Z) : bool :=
  match pat, s with
  | [], _ => true
  | _ :: _, [] => false
  | p :: pr, c :: sr => (p =? c) && starts_with pr sr
  end.

Fixpoint contains (pat s : list Z) : bool :=
  starts_with pat s ||
  match s with
  | [] => false
  | _ :: r => contains pat r
  end.

(** [str.isspace] on one code point. *)
Definition isspace (c : Z) : bool :=
  ((0x09 <=? c) && (c <=? 0x0D)) || ((0x1C <=? c) && (c <=? 0x20))
  || (c =? 0x85) || (c =? 0xA0) || (c =? 0x1680)
  || ((0x2000 <=? c) && (c <=? 0x200A))
  || (c =? 0x2028) || (c =? 0x2029) || (c =? 0x202F) || (c =? 0x205F)
  || (c =? 0x3000).

(** [str.rstrip()]. *)
Fixpoint rstrip (s : list Z) : list Z :=
  match s with
  | [] => []
  | c :: r =>
    match rstrip r with
    | [] => if isspace c then [] else [c]
    | r' => c :: r'
    end
  end.

(** ** Paths: [pathlib.PurePosixPath(p).name] and [.suffix] *)

(** [s.split('/')]. *)
Fixpoint split_sep (s : string) : list string :=
  match s with
  | EmptyString => [EmptyString]
  | String c r =>
    if Ascii.eqb c "/" then EmptyString :: split_sep r
    else
      match split_sep r with
      | [] => [String c EmptyString]
      | x :: xs => String c x :: xs
      end
  end.

(** The components pathlib keeps: empty ones and ["."] are dropped. *)
Definition path_parts (p : string) : list string :=
  List.filter (fun x => negb (String.eqb x EmptyString) && negb (String.eqb x "."))
              (split_sep p).

(** [PurePath.name]: the final component, or [''] when there is none. *)
Definition path_name (p : string) : string := List.last (path_parts p) EmptyString.

(** [s.rfind(c)]: the index of the last occurrence, or [-1]. *)
Fixpoint rfind (c : ascii) (s : string) : Z :=
  match s with
  | EmptyString => -1
  | String a r =>
    let j := rfind c r in
    if 0 <=? j then j + 1 else if Ascii.eqb a c then 0 else -1
  end.

(** [s[n:]] for [0 <= n]. *)
Fixpoint str_drop (n : nat) (s : string) : string :=
  match n, s with
  | O, _ => s
  | S n', String _ r => str_drop n' r
  | S _, EmptyString => EmptyString
  end.

Definition str_len (s : string) : Z := Z.of_nat (String.length s).

(** [PurePath.suffix] (Python 3.13 and earlier):
<<
    name = self.name
    i = name.rfind('.')
    if 0 < i < len(name) - 1: return name[i:]
    else: return ''
>> *)
Definition suffix (p : string) : string :=
  let name := path_name p in
  let i := rfind "." name in
  if (0 <? i) && (i <? str_len name - 1) then str_drop (Z.to_nat i) name
  else EmptyString.

(** ** The script's constants *)

Definition LICENSE_MAP : gmap string string :=
  list_to_map
    [ (".sh", "#"); (".rs", "//"); (".py", "#"); (".go", "//");
      (".js", "//"); (".jsx", "//"); (".ts", "//"); (".tsx", "//") ]%string.

Definition dquote : string := String "034"%char EmptyString.

Definition LICENSE_LINES : list string :=
  [ "Copyright 2025 chenjjiaa";
    EmptyString;
    "Licensed under the Apache License, Version 2.0 (the " +:+ dquote
      +:+ "License" +:+ dquote +:+ ");";
    "you may not use this file except in compliance with the License.";
    "You may obtain a copy of the License at";
    EmptyString;
    "    http://www.apache.org/licenses/LICENSE-2.0";
    EmptyString;
    "Unless required by applicable law or agreed to in writing, software";
    "distributed under the License is distributed on an " +:+ dquote
      +:+ "AS IS" +:+ dquote +:+ " BASIS,";
    "WITHOUT WARRANTIES OR CONDITIONS OF ANY KIND, either express or implied.";
    "See the License for the specific language governing permissions and";
    "limitations under the License." ]%string.

Definition LICENSED_MARK : list Z := py_str "Licensed under the Apache License".

(** One element of [commented_header]:
<<
    f"{comment} {line}".rstrip() + '\n' if line else f"{comment}\n"
>> *)
Definition render_line (comment line : list Z) : list Z :=
  match line with
  | [] => comment ++ [LF]
  | _ :: _ => rstrip (comment ++ py_str " " ++ line) ++ [LF]
  end.

Definition commented_header (comment : string) : list (list Z) :=
  map (fun line => render_line (py_str comment) (py_str line)) LICENSE_LINES.

(** ** The file system and the I/O monad *)

Record file := File {
  f_bytes : list ascii;
  f_readable : bool;
  f_writable : bool
}.

Inductive mode := ModeR | ModeW.

(** What the process asks of the operating system, in order. *)
Inductive event :=
| EvOpen (path : string) (m : mode)
| EvWrite (path : string) (data : list ascii).

Record world := World {
  fs : gmap string file;
  trace : list event
}.

Inductive exn :=
| FileNotFoundError
| PermissionError
| UnicodeDecodeError
| UnicodeEncodeError.

Inductive result (A : Type) :=
| Return (a : A)
| Raise (e : exn).
Arguments Return {A} a.
Arguments Raise {A} e.

Definition io (A : Type) : Type := world -> result A * world.

Definition io_ret {A} (a : A) : io A := fun w => (Return a, w).

Definition io_bind {A B} (m : io A) (k : A -> io B) : io B :=
  fun w =>
    match m w with
    | (Return a, w') => k a w'
    | (Raise e, w') => (Raise e, w')
    end.

Definition io_raise {A} (e : exn) : io A := fun w => (Raise e, w).

#[global] Instance io_mret : MRet io := @io_ret.
#[global] Instance io_mbind : MBind io := fun A B k m => io_bind m k.

(** Every request is recorded, whether or not it succeeds. *)
Definition log (e : event) (w : world) : world :=
  World (fs w) (trace w ++ [e]).

(** [open(file_path, 'r', encoding='utf-8')]: the handle is the bytes of
    the file. *)
Definition open_r (path : string) : io (list ascii) :=
  fun w =>
    let w := log (EvOpen path ModeR) w in
    match fs w !! path with
    | None => (Raise FileNotFoundError, w)
    | Some f =>
      if f_readable f then (Return (f_bytes f), w)
      else (Raise PermissionError, w)
    end.

(** [f.readlines()] on a handle opened for reading as UTF-8 text. *)
Definition readlines (data : list ascii) : io (list (list Z)) :=
  match Utf8.decode data with
  | None => io_raise UnicodeDecodeError
  | Some t => mret (split_lines (translate_newlines t))
  end.

(** [open(file_path, 'w', encoding='utf-8')]: an existing file is
    truncated, a missing one is created. *)
Definition open_w (path : string) : io unit :=
  fun w =>
    let w := log (EvOpen path ModeW) w in
    match fs w !! path with
    | None => (Return tt, World (<[path := File [] true true]> (fs w)) (trace w))
    | Some f =>
      if f_writable f
      then (Return tt,
            World (<[path := File [] (f_readable f) (f_writable f)]> (fs w))
                  (trace w))
      else (Raise PermissionError, w)
    end.

(** [f.writelines(ls)] followed by the close of the [with] block, on a
    handle opened by [open_w]; on a POSIX host a line feed is written as
    it is. *)
Definition writelines (path : string) (ls : list (list Z)) : io unit :=
  match Utf8.encode (concat ls) with
  | None => io_raise UnicodeEncodeError
  | Some data =>
    fun w =>
      let w := log (EvWrite path data) w in
      match fs w !! path with
      | None => (Return tt, w)
      | Some f =>
        (Return tt,
         World (<[path := File data (f_readable f) (f_writable f)]> (fs w))
               (trace w))
      end
  end.

(** ** The program *)

Definition str_is_empty (s : string) : bool :=
  match s with
  | EmptyString => true
  | String _ _ => false
  end.

(** [any("Licensed under the Apache License" in line for line in lines[:15])]. *)
Definition already_licensed (lines : list (list Z)) : bool :=
  existsb (contains LICENSED_MARK) (take 15 lines).

(** [add_header(file_path)].  [LICENSE_MAP.get(ext)] is [None] for a
    missing key, and [not comment] also holds of an empty marker. *)
Definition add_header (file_path : string) : io unit :=
  let ext := suffix file_path in
  match LICENSE_MAP !! ext with
  | None => mret tt
  | Some comment =>
    if str_is_empty comment then mret tt
    else
      lines ← (f ← open_r file_path; readlines f);
      if already_licensed lines then mret tt
      else
        open_w file_path ;;
        writelines file_path (commented_header comment ++ [[LF]] ++ lines)
  end.

(** [for file in sys.argv[1:]: add_header(file)]. *)
Fixpoint for_each (files : list string) : io unit :=
  match files with
  | [] => mret tt
  | file :: rest => add_header file ;; for_each rest
  end.

(** The exit status of the interpreter: 0 when the script runs to its end,
    1 when an exception is not caught. *)
Definition exit_status (r : result unit) : Z :=
  match r with
  | Return _ => 0
  | Raise _ => 1
  end.

Definition main (argv : list string) (w : world) : Z * world :=
  let (r, w') := for_each (drop 1 argv) w in (exit_status r, w').

(** ** Notions used to state the properties *)

(** A complete line: no line feed but the one that ends it. *)
Fixpoint is_line (l : list Z) : bool :=
  match l with
  | [] => false
  | c :: r =>
    match r with
    | [] => c =? LF
    | _ :: _ => negb (c =? LF) && is_line r
    end
  end.

(** The lines [add_header] sees in a file with the given bytes, when they
    decode. *)
Definition read_lines (data : list ascii) : option (list (list Z)) :=
  (fun t => split_lines (translate_newlines t)) <$> Utf8.decode data.

(** The header block in a file's comment syntax, as text and as bytes. *)
Definition header_text (comment : string) : list Z :=
  concat (commented_header comment).

Definition header_bytes (comment : string) : list ascii :=
  map byte_of (header_text comment).

(** The bytes of a file, when it exists. *)
Definition content (w : world) (path : string) : option (list ascii) :=
  f_bytes <$> fs w !! path.

(** What one call of [add_header] on a supported path can do, by the
    state of the file it is given. *)
Inductive outcome (path comment : string) (w : world) : result unit -> world -> Prop :=
| OutMissing :
    fs w !! path = None ->
    outcome path comment w (Raise FileNotFoundError) (log (EvOpen path ModeR) w)
| OutUnreadable f :
    fs w !! path = Some f -> f_readable f = false ->
    outcome path comment w (Raise PermissionError) (log (EvOpen path ModeR) w)
| OutUndecodable f :
    fs w !! path = Some f -> f_readable f = true ->
    Utf8.decode (f_bytes f) = None ->
    outcome path comment w (Raise UnicodeDecodeError) (log (EvOpen path ModeR) w)
| OutLicensed f t :
    fs w !! path = Some f -> f_readable f = true ->
    Utf8.decode (f_bytes f) = Some t ->
    already_licensed (split_lines (translate_newlines t)) = true ->
    outcome path comment w (Return tt) (log (EvOpen path ModeR) w)
| OutUnwritable f t :
    fs w !! path = Some f -> f_readable f = true ->
    Utf8.decode (f_bytes f) = Some t ->
    already_licensed (split_lines (translate_newlines t)) = false ->
    f_writable f = false ->
    outcome path comment w (Raise PermissionError)
            (log (EvOpen path ModeW) (log (EvOpen path ModeR) w))
| OutInjected f t body :
    fs w !! path = Some f -> f_readable f = true ->
    Utf8.decode (f_bytes f) = Some t ->
    already_licensed (split_lines (translate_newlines t)) = false ->
    f_writable f = true ->
    Utf8.encode (translate_newlines t) = Some body ->
    outcome path comment w (Return tt)
      (World
         (<[path := File (header_bytes comment ++ byte_of LF :: body) true true]>
            (fs w))
         (trace w ++ [EvOpen path ModeR; EvOpen path ModeW;
                      EvWrite path (header_bytes comment ++ byte_of LF :: body)])).

(** ** The extension as the specification words it *)

Fixpoint has_dot (s : string) : bool :=
  match s with
  | EmptyString => false
  | String a r => Ascii.eqb a "." || has_dot r
  end.

(** "The substring after the final [.] in the filename, including the
    dot"; a filename without a dot has no extension. *)
Fixpoint spec_extension (name : string) : string :=
  match name with
  | EmptyString => EmptyString
  | String a r =>
    if has_dot r then spec_extension r
    else if Ascii.eqb a "." then name
    else EmptyString
  end.

(** The only dot of the filename is its first character. *)
Definition only_dot_leads (name : string) : bool :=
  match name with
  | EmptyString => false
  | String a r => Ascii.eqb a "." && negb (has_dot r)
  end.

(** The filename ends in a dot. *)
Fixpoint ends_with_dot (name : string) : bool :=
  match name with
  | EmptyString => false
  | String a EmptyString => Ascii.eqb a "."
  | String _ r => ends_with_dot r
  end.

(** ** Notions about whole runs *)

(** The extension of the path is a key of the table. *)
Definition supported (path : string) : bool :=
  match LICENSE_MAP !! suffix path with
  | Some _ => true
  | None => false
  end.

(** The file at [path] is readable text with the notice among its first
    15 lines. *)
Definition licensed_file (w : world) (path : string) : Prop :=
  exists f lines,
    fs w !! path = Some f /\ f_readable f = true
    /\ read_lines (f_bytes f) = Some lines /\ already_licensed lines = true.

(** The string holds a path separator. *)
Fixpoint has_slash (s : string) : bool :=
  match s with
  | EmptyString => false
  | String a r => Ascii.eqb a "/" || has_slash r
  end.

(** ** Sample inputs *)

(** Scenario A of the specification: a [.py] file holding one line. *)
Definition scenario_a : world :=
  World {[ "a.py"%string := File (bytes_lit "print('hi')" ++ [byte_of LF]) true true ]}
        [].

(** Scenario B: a [.go] file whose second line carries the notice. *)
Definition scenario_b : world :=
  World {[ "main.go"%string :=
             File (bytes_lit "package main" ++ [byte_of LF]
                   ++ bytes_lit "// Licensed under the Apache License, Version 2.0"
                   ++ [byte_of LF])
                  true true ]}
        [].

(** A file whose sixteenth line is the first to carry the notice. *)
Definition late_notice : world :=
  World {[ "late.rs"%string :=
             File (replicate 15 (byte_of LF)
                   ++ bytes_lit "// Licensed under the Apache License"
                   ++ [byte_of LF])
                  true true ]}
        [].

(** Two source files side by side, neither with a notice. *)
Definition two_files : world :=
  World (<[ "a.py"%string := File (bytes_lit "print('hi')" ++ [byte_of LF]) true true ]>
           {[ "b.go"%string := File (bytes_lit "package main" ++ [byte_of LF]) true true ]})
        [].

(** * Properties *)

(** ** The UTF-8 codec *)

Module Utf8Facts.
Import Utf8.

Ltac zsolve := Z.div_mod_to_equations; lia.

(** Decide every integer comparison of the goal by arithmetic. *)
Ltac zbool :=
  repeat match goal with
  | |- context [?a <=? ?b] =>
    first [ replace (a <=? b) with true by (symmetry; apply Z.leb_le; zsolve)
          | replace (a <=? b) with false by (symmetry; apply Z.leb_gt; zsolve) ]
  | |- context [?a <? ?b] =>
    first [ replace (a <? b) with true by (symmetry; apply Z.ltb_lt; zsolve)
          | replace (a <? b) with false by (symmetry; apply Z.ltb_ge; zsolve) ]
  end.

(** Turn the boolean tests among the hypotheses into inequalities. *)
Ltac zhyps :=
  repeat match goal with
  | H : _ && _ = true |- _ => apply andb_prop in H; destruct H
  | H : negb _ = true |- _ => apply negb_true_iff in H
  | H : negb _ = false |- _ => apply negb_false_iff in H
  | H : (_ <=? _) = true |- _ => apply Z.leb_le in H
  | H : (_ <=? _) = false |- _ => apply Z.leb_gt in H
  | H : (_ <? _) = true |- _ => apply Z.ltb_lt in H
  | H : (_ <? _) = false |- _ => apply Z.ltb_ge in H
  | H : _ && _ = false |- _ => apply andb_false_iff in H; destruct H
  end.

Lemma is_scalar_spec c :
  is_scalar c = true <-> 0 <= c <= 0x10FFFF /\ ~ (0xD800 <= c <= 0xDFFF).
Proof.
  unfold is_scalar. split.
  - intros H. zhyps; lia.
  - intros [H1 H2].
    destruct (Z_lt_dec c 0xD800); [| assert (0xDFFF < c) by lia ]; zbool;
      reflexivity.
Qed.

Lemma encode_char_range c bs :
  encode_char c = Some bs -> Forall (fun b => 0 <= b < 256) bs.
Proof.
  unfold encode_char. destruct (is_scalar c) eqn:Hs; [| discriminate ].
  apply is_scalar_spec in Hs. cbn [negb].
  repeat (case_match; zhyps); intros [= <-];
    repeat constructor; zsolve.
Qed.

Lemma encode_char_decode c bs rest :
  encode_char c = Some bs ->
  decode_z (bs ++ rest) = cons c <$> decode_z rest.
Proof.
  unfold encode_char. destruct (is_scalar c) eqn:Hs; [| discriminate ].
  pose proof (proj1 (is_scalar_spec c) Hs) as [Hr Hn]. cbn [negb].
  repeat (case_match; zhyps); intros [= <-]; cbn [decode_z app];
    unfold is_cont; cbv zeta.
  - zbool. reflexivity.
  - zbool. cbn [andb]. do 2 f_equal. zsolve.
  - zbool. cbn [andb].
    replace (_ * 4096 + _ * 64 + _) with c by zsolve.
    rewrite Hs. zbool. reflexivity.
  - zbool. cbn [andb].
    replace (_ * 262144 + _ * 4096 + _ * 64 + _) with c by zsolve.
    rewrite Hs. zbool. reflexivity.
Qed.


Lemma encode_z_decode t bs :
  encode_z t = Some bs -> decode_z bs = Some t.
Proof.
  revert bs. induction t as [| c t IH ]; intros bs; cbn [encode_z].
  - intros [= <-]. reflexivity.
  - destruct (encode_char c) as [cs |] eqn:Hc; [| discriminate ].
    destruct (encode_z t) as [rs |]; [| discriminate ].
    intros [= <-]. rewrite (encode_char_decode _ _ _ Hc), (IH rs eq_refl).
    reflexivity.
Qed.

Lemma encode_z_range t bs :
  encode_z t = Some bs -> Forall (fun b => 0 <= b < 256) bs.
Proof.
  revert bs. induction t as [| c t IH ]; intros bs; cbn [encode_z].
  - intros [= <-]. constructor.
  - destruct (encode_char c) as [cs |] eqn:Hc; [| discriminate ].
    destruct (encode_z t) as [rs |]; [| discriminate ].
    intros [= <-]. apply Forall_app. split; [ exact (encode_char_range _ _ Hc) | auto ].
Qed.

Lemma encode_char_scalar c : is_Some (encode_char c) <-> is_scalar c = true.
Proof.
  unfold encode_char. destruct (is_scalar c); cbn [negb].
  - repeat case_match; split; eauto.
  - split; [ intros [? [=]] | discriminate ].
Qed.

Lemma encode_z_scalar t :
  is_Some (encode_z t) <-> Forall (fun c => is_scalar c = true) t.
Proof.
  induction t as [| c t IH ]; cbn [encode_z].
  - split; [ constructor | eauto ].
  - rewrite Forall_cons, <- IH, <- encode_char_scalar.
    destruct (encode_char c), (encode_z t); split;
      try (intros [? [=]]); try (intros [[? [=]] [? [=]]]); eauto.
Qed.

Lemma encode_z_app t1 t2 b1 b2 :
  encode_z t1 = Some b1 -> encode_z t2 = Some b2 ->
  encode_z (t1 ++ t2) = Some (b1 ++ b2).
Proof.
  revert b1. induction t1 as [| c t1 IH ]; intros b1; cbn [encode_z app].
  - intros [= <-] H2. exact H2.
  - destruct (encode_char c) as [cs |]; [| discriminate ].
    destruct (encode_z t1) as [rs |]; [| discriminate ].
    intros [= <-] H2. rewrite (IH rs eq_refl H2), app_assoc. reflexivity.
Qed.

(** Whatever decodes is the encoding of its decoding: the decoder
    accepts no second spelling of a text. *)
Lemma decode_z_encode_bounded n :
  forall bs t, (length bs <= n)%nat -> decode_z bs = Some t -> encode_z t = Some bs.
Proof.
  induction n as [| n IH ]; intros bs t Hlen.
  - destruct bs; [| cbn in Hlen; lia ]. intros [= <-]. reflexivity.
  - destruct bs as [| b0 r0 ]; [ intros [= <-]; reflexivity |].
    cbn [length] in Hlen. cbn [decode_z].
    destruct ((0 <=? b0) && (b0 <? 128)) eqn:H0.
    { destruct (decode_z r0) as [t0 |] eqn:Hd; [| discriminate ].
      intros [= <-]. cbn [encode_z].
      rewrite (IH r0 t0 ltac:(lia) Hd).
      unfold encode_char, is_scalar. zhyps; zbool; reflexivity. }
    destruct r0 as [| b1 r1 ]; [ discriminate |]. cbn [length] in Hlen.
    destruct ((192 <=? b0) && (b0 <? 224)) eqn:H1.
    { cbv zeta. destruct (is_cont b1 && _) eqn:Hc; [| discriminate ].
      destruct (decode_z r1) as [t1 |] eqn:Hd; [| discriminate ].
      intros [= <-]. cbn [encode_z].
      rewrite (IH r1 t1 ltac:(lia) Hd).
      unfold encode_char, is_scalar. unfold is_cont in Hc.
      zhyps; zbool; cbn [negb andb app]; repeat f_equal; zsolve. }
    destruct r1 as [| b2 r2 ]; [ discriminate |]. cbn [length] in Hlen.
    destruct ((224 <=? b0) && (b0 <? 240)) eqn:H2.
    { cbv zeta. destruct (is_cont b1 && _ && _ && _) eqn:Hc; [| discriminate ].
      destruct (decode_z r2) as [t2 |] eqn:Hd; [| discriminate ].
      intros [= <-]. cbn [encode_z].
      rewrite (IH r2 t2 ltac:(lia) Hd).
      apply andb_prop in Hc. destruct Hc as [Hc Hs].
      unfold encode_char. rewrite Hs. unfold is_cont in Hc.
      apply is_scalar_spec in Hs.
      zhyps; zbool; cbn [negb andb app]; repeat f_equal; zsolve. }
    destruct r2 as [| b3 r3 ]; [ discriminate |]. cbn [length] in Hlen.
    destruct ((240 <=? b0) && (b0 <? 248)) eqn:H3; [| discriminate ].
    cbv zeta. destruct (is_cont b1 && _ && _ && _ && _) eqn:Hc; [| discriminate ].
    destruct (decode_z r3) as [t3 |] eqn:Hd; [| discriminate ].
    intros [= <-]. cbn [encode_z].
    rewrite (IH r3 t3 ltac:(lia) Hd).
    apply andb_prop in Hc. destruct Hc as [Hc Hs].
    unfold encode_char. rewrite Hs. unfold is_cont in Hc.
    apply is_scalar_spec in Hs.
    zhyps; zbool; cbn [negb andb app]; repeat f_equal; zsolve.
Qed.

Lemma decode_z_encode bs t : decode_z bs = Some t -> encode_z t = Some bs.
Proof. apply (decode_z_encode_bounded (length bs)). lia. Qed.


Lemma byte_val_range b : 0 <= byte_val b < 256.
Proof.
  unfold byte_val. pose proof (N_ascii_bounded b). lia.
Qed.

Lemma byte_of_val b : byte_of (byte_val b) = b.
Proof.
  unfold byte_of, byte_val. rewrite N2Z.id. apply ascii_N_embedding.
Qed.

Lemma byte_val_of z : 0 <= z < 256 -> byte_val (byte_of z) = z.
Proof.
  intros Hz. unfold byte_of, byte_val.
  rewrite N_ascii_embedding by lia. lia.
Qed.

Lemma map_byte_of_val bs : map byte_of (map byte_val bs) = bs.
Proof.
  induction bs as [| b bs IH ]; cbn [map]; [ reflexivity |].
  rewrite byte_of_val, IH. reflexivity.
Qed.

Lemma map_byte_val_of zs :
  Forall (fun b => 0 <= b < 256) zs -> map byte_val (map byte_of zs) = zs.
Proof.
  induction 1 as [| z zs Hz _ IH ]; cbn [map]; [ reflexivity |].
  rewrite byte_val_of, IH by exact Hz. reflexivity.
Qed.

(** Reading back what was written gives the text that was written. *)
Lemma encode_decode t bs : encode t = Some bs -> decode bs = Some t.
Proof.
  unfold encode, decode. destruct (encode_z t) as [zs |] eqn:Hz; [| discriminate ].
  intros [= <-]. rewrite map_byte_val_of by exact (encode_z_range _ _ Hz).
  exact (encode_z_decode _ _ Hz).
Qed.

(** Writing back what was read gives the bytes that were read. *)
Lemma decode_encode bs t : decode bs = Some t -> encode t = Some bs.
Proof.
  unfold encode, decode. intros Hd.
  rewrite (decode_z_encode _ _ Hd). cbn. rewrite map_byte_of_val. reflexivity.
Qed.

Lemma encode_scalar t :
  is_Some (encode t) <-> Forall (fun c => is_scalar c = true) t.
Proof.
  rewrite <- encode_z_scalar. unfold encode.
  destruct (encode_z t); cbn; split; intros [? [=]]; eauto.
Qed.

Lemma decode_scalar bs t :
  decode bs = Some t -> Forall (fun c => is_scalar c = true) t.
Proof.
  intros Hd. apply encode_scalar. rewrite (decode_encode _ _ Hd). eauto.
Qed.

Lemma encode_app t1 t2 b1 b2 :
  encode t1 = Some b1 -> encode t2 = Some b2 ->
  encode (t1 ++ t2) = Some (b1 ++ b2).
Proof.
  unfold encode.
  destruct (encode_z t1) as [z1 |] eqn:H1; [| discriminate ].
  destruct (encode_z t2) as [z2 |] eqn:H2; [| discriminate ].
  intros [= <-] [= <-]. rewrite (encode_z_app _ _ _ _ H1 H2). cbn.
  rewrite map_app. reflexivity.
Qed.

(** A code point below 128 is one byte, the same number. *)
Lemma encode_ascii t :
  Forall (fun c => 0 <= c < 128) t -> encode t = Some (map byte_of t).
Proof.
  unfold encode. intros H.
  assert (encode_z t = Some t) as ->; [| reflexivity ].
  induction H as [| c t Hc _ IH ]; cbn [encode_z]; [ reflexivity |].
  rewrite IH. unfold encode_char, is_scalar. zbool. reflexivity.
Qed.

(** A carriage return in a text is a carriage return byte in its
    encoding. *)
Lemma encode_CR_byte t bs :
  encode t = Some bs -> CR ∈ t -> byte_of CR ∈ bs.
Proof.
  unfold encode. destruct (encode_z t) as [zs |] eqn:Hz; [| discriminate ].
  intros [= <-] Hin. apply list_elem_of_fmap_2.
  revert zs Hz. induction t as [| c t IH ]; intros zs; [ inversion Hin |].
  cbn [encode_z].
  destruct (encode_char c) as [cs |] eqn:Hc; [| discriminate ].
  destruct (encode_z t) as [rs |]; [| discriminate ].
  intros [= <-]. apply elem_of_app. apply elem_of_cons in Hin.
  destruct Hin as [<- | Hin].
  - left. vm_compute in Hc. injection Hc as <-. apply list_elem_of_here.
  - right. apply IH; [ exact Hin | reflexivity ].
Qed.

End Utf8Facts.

(** ** Text operations *)

Section TextFacts.

Lemma list_ind2 {A} (P : list A -> Prop) :
  P [] -> (forall a, P [a]) ->
  (forall a b l, P l -> P (b :: l) -> P (a :: b :: l)) ->
  forall l, P l.
Proof.
  intros H0 H1 H2 l.
  assert (P l /\ forall a, P (a :: l)) as [H _]; [| exact H ].
  induction l as [| b l [IH1 IH2] ]; split; auto.
Qed.

(** Nothing is left to translate in a text that was read. *)
Lemma translate_newlines_no_CR t : Forall (fun c => c <> CR) (translate_newlines t).
Proof.
  induction t as [| a | a b l IH1 IH2 ] using list_ind2.
  - constructor.
  - cbn. destruct (Z.eqb_spec a CR); repeat constructor; unfold LF, CR in *; lia.
  - cbn [translate_newlines] in *.
    destruct (Z.eqb_spec a CR) as [-> | Ha ].
    + constructor; [ unfold LF, CR; lia |].
      destruct (Z.eqb_spec b LF); [ exact IH1 | exact IH2 ].
    + constructor; [ exact Ha | exact IH2 ].
Qed.

(** A text without carriage returns is read as it is. *)
Lemma translate_newlines_id t :
  Forall (fun c => c <> CR) t -> translate_newlines t = t.
Proof.
  induction 1 as [| c t Hc _ IH ]; [ reflexivity |].
  cbn [translate_newlines]. destruct (Z.eqb_spec c CR); [ contradiction |].
  rewrite IH. reflexivity.
Qed.

Lemma translate_newlines_Forall (P : Z -> Prop) t :
  P LF -> Forall P t -> Forall P (translate_newlines t).
Proof.
  intros HLF. induction t as [| a | a b l IH1 IH2 ] using list_ind2; intros H.
  - constructor.
  - cbn. destruct (a =? CR); repeat constructor; auto. by inversion H.
  - cbn [translate_newlines] in *.
    inversion H as [| ? ? Ha Hbl ]; subst. inversion Hbl as [| ? ? Hb Hl ]; subst.
    destruct (a =? CR).
    + constructor; [ exact HLF |]. destruct (b =? LF); auto.
    + constructor; auto.
Qed.

(** The lines of a text, put end to end, are the text. *)
Lemma concat_split_lines t : concat (split_lines t) = t.
Proof.
  induction t as [| c t IH ]; [ reflexivity |].
  cbn [split_lines]. destruct (c =? LF).
  - cbn. rewrite IH. reflexivity.
  - destruct (split_lines t) as [| l ls ]; cbn in *; rewrite <- IH; reflexivity.
Qed.

Lemma split_lines_nil t : split_lines t = [] -> t = [].
Proof.
  intros H. rewrite <- (concat_split_lines t), H. reflexivity.
Qed.

(** A line feed ends a line: what precedes it is not joined to what
    follows. *)
Lemma split_lines_line l rest :
  Forall (fun c => c <> LF) l ->
  split_lines (l ++ LF :: rest) = (l ++ [LF]) :: split_lines rest.
Proof.
  induction 1 as [| c l Hc _ IH ]; [ reflexivity |].
  cbn [app split_lines]. destruct (Z.eqb_spec c LF); [ contradiction |].
  rewrite IH. reflexivity.
Qed.

Lemma is_line_spec l :
  is_line l = true <->
  exists l', l = l' ++ [LF] /\ Forall (fun c => c <> LF) l'.
Proof.
  induction l as [| c r IH ].
  - split; [ discriminate | intros ([| ? ?] & [=] & _) ].
  - cbn [is_line]. destruct r as [| d r ].
    + split.
      * intros ->%Z.eqb_eq. exists []. split; [ reflexivity | constructor ].
      * intros ([| ? [| ? ?]] & [=] & _). subst. reflexivity.
    + rewrite andb_true_iff, negb_true_iff, IH, Z.eqb_neq. split.
      * intros (Hc & l' & -> & Hl'). exists (c :: l').
        split; [ reflexivity | constructor; assumption ].
      * intros ([| c' l'] & [=] & Hl'); subst.
        inversion Hl'; subst. split; [ assumption |]. eauto.
Qed.

Lemma split_lines_concat ls rest :
  Forall (fun l => is_line l = true) ls ->
  split_lines (concat ls ++ rest) = ls ++ split_lines rest.
Proof.
  induction 1 as [| l ls Hl _ IH ]; [ reflexivity |].
  apply is_line_spec in Hl. destruct Hl as (l' & -> & Hl').
  cbn [concat app]. rewrite <- !app_assoc. cbn [app].
  rewrite split_lines_line by exact Hl'. rewrite IH. reflexivity.
Qed.

Lemma existsb_take_lookup {A} (f : A -> bool) (k i : nat) (l : list A) x :
  (i < k)%nat -> l !! i = Some x -> f x = true -> existsb f (take k l) = true.
Proof.
  intros Hi Hl Hf. apply existsb_exists. exists x. split; [| exact Hf ].
  apply list_elem_of_In, list_elem_of_lookup. exists i.
  rewrite lookup_take_lt by exact Hi. exact Hl.
Qed.

End TextFacts.

(** ** The table *)

Section TableFacts.

Lemma LICENSE_MAP_lookup ext c :
  LICENSE_MAP !! ext = Some c <->
  (ext = ".sh" /\ c = "#") \/ (ext = ".rs" /\ c = "//") \/
  (ext = ".py" /\ c = "#") \/ (ext = ".go" /\ c = "//") \/
  (ext = ".js" /\ c = "//") \/ (ext = ".jsx" /\ c = "//") \/
  (ext = ".ts" /\ c = "//") \/ (ext = ".tsx" /\ c = "//").
Proof.
  unfold LICENSE_MAP. cbn [list_to_map foldr fst snd].
  rewrite !lookup_insert_Some, lookup_empty. split.
  - intros H. repeat (destruct H as [[<- <-] | [_ H]]; [ tauto |]). discriminate.
  - intros H.
    repeat (destruct H as [[-> ->] | H]; [ repeat (first [ left; split; reflexivity | right; split; [ discriminate |] ]) |]).
    destruct H as [-> ->].
    repeat (first [ left; split; reflexivity | right; split; [ discriminate |] ]).
Qed.

Lemma LICENSE_MAP_marker ext c :
  LICENSE_MAP !! ext = Some c -> c = "#"%string \/ c = "//"%string.
Proof. rewrite LICENSE_MAP_lookup. intuition auto. Qed.

End TableFacts.

(** ** The header block *)

Section HeaderFacts.

Lemma header_lines_complete c :
  c = "#"%string \/ c = "//"%string ->
  Forall (fun l => is_line l = true) (commented_header c).
Proof.
  intros [-> | ->]; apply List.Forall_forall; intros l Hl;
    repeat (destruct Hl as [<- | Hl]; [ vm_compute; reflexivity |]);
    destruct Hl.
Qed.

Lemma header_third_line c :
  c = "#"%string \/ c = "//"%string ->
  exists l, commented_header c !! 2%nat = Some l
            /\ contains LICENSED_MARK l = true.
Proof.
  intros [-> | ->]; eexists; (split; [ reflexivity | vm_compute; reflexivity ]).
Qed.

Lemma header_text_ascii c :
  c = "#"%string \/ c = "//"%string ->
  Forall (fun z => 0 <= z < 128) (header_text c).
Proof.
  intros [-> | ->]; apply List.Forall_forall; intros z Hz;
    apply (forallb_forall (fun z => (0 <=? z) && (z <? 128))) in Hz;
    [ lia | vm_compute; reflexivity | lia | vm_compute; reflexivity ].
Qed.

Lemma header_text_encode c :
  c = "#"%string \/ c = "//"%string ->
  Utf8.encode (header_text c) = Some (header_bytes c).
Proof.
  intros Hc. apply Utf8Facts.encode_ascii, header_text_ascii, Hc.
Qed.

Lemma header_text_no_CR c :
  c = "#"%string \/ c = "//"%string ->
  Forall (fun z => z <> CR) (header_text c).
Proof.
  intros [-> | ->]; apply List.Forall_forall; intros z Hz;
    apply (forallb_forall (fun z => negb (z =? CR))) in Hz;
    [ apply Z.eqb_neq, negb_true_iff, Hz | vm_compute; reflexivity
    | apply Z.eqb_neq, negb_true_iff, Hz | vm_compute; reflexivity ].
Qed.

End HeaderFacts.

(** ** One call of [add_header], outcome by outcome *)

Section RunFacts.

Ltac io_unfold :=
  unfold mbind, io_mbind, io_bind, mret, io_mret, io_ret, io_raise.

Variables (path : string) (w : world).

(** The extension is not a key of the table: nothing is asked of the
    file system. *)
Lemma add_header_unsupported :
  LICENSE_MAP !! suffix path = None -> add_header path w = (Return tt, w).
Proof. unfold add_header. intros ->. reflexivity. Qed.

Variable c : string.
Hypothesis Hc : LICENSE_MAP !! suffix path = Some c.

Lemma add_header_supported :
  add_header path w =
  (lines ← (f ← open_r path; readlines f);
   if already_licensed lines then mret tt
   else open_w path ;;
        writelines path (commented_header c ++ [[LF]] ++ lines)) w.
Proof.
  unfold add_header. rewrite Hc.
  destruct (LICENSE_MAP_marker _ _ Hc) as [-> | ->]; reflexivity.
Qed.

Lemma add_header_missing :
  fs w !! path = None ->
  add_header path w = (Raise FileNotFoundError, log (EvOpen path ModeR) w).
Proof.
  intros Hf. rewrite add_header_supported. io_unfold. unfold open_r.
  cbn [log fs]. rewrite Hf. reflexivity.
Qed.

Variable f : file.
Hypothesis Hf : fs w !! path = Some f.

Lemma add_header_unreadable :
  f_readable f = false ->
  add_header path w = (Raise PermissionError, log (EvOpen path ModeR) w).
Proof.
  intros Hr. rewrite add_header_supported. io_unfold. unfold open_r.
  cbn [log fs]. rewrite Hf, Hr. reflexivity.
Qed.

Hypothesis Hr : f_readable f = true.

Lemma add_header_undecodable :
  Utf8.decode (f_bytes f) = None ->
  add_header path w = (Raise UnicodeDecodeError, log (EvOpen path ModeR) w).
Proof.
  intros Hd. rewrite add_header_supported. io_unfold. unfold open_r, readlines.
  cbn [log fs]. rewrite Hf, Hr, Hd. reflexivity.
Qed.

Variable t : list Z.
Hypothesis Hd : Utf8.decode (f_bytes f) = Some t.

Lemma add_header_licensed :
  already_licensed (split_lines (translate_newlines t)) = true ->
  add_header path w = (Return tt, log (EvOpen path ModeR) w).
Proof.
  intros Hl. rewrite add_header_supported. io_unfold. unfold open_r, readlines.
  cbn [log fs]. rewrite Hf, Hr, Hd. io_unfold. rewrite Hl. reflexivity.
Qed.

Hypothesis Hl : already_licensed (split_lines (translate_newlines t)) = false.

Lemma add_header_unwritable :
  f_writable f = false ->
  add_header path w =
  (Raise PermissionError, log (EvOpen path ModeW) (log (EvOpen path ModeR) w)).
Proof.
  intros Hw. rewrite add_header_supported. io_unfold. unfold open_r, readlines.
  cbn [log fs]. rewrite Hf, Hr, Hd. io_unfold. rewrite Hl. unfold open_w.
  cbn [log fs]. rewrite Hf, Hw. reflexivity.
Qed.

(** The text read from a file can always be written back. *)
Lemma encode_read_text : is_Some (Utf8.encode (translate_newlines t)).
Proof.
  apply Utf8Facts.encode_scalar, translate_newlines_Forall; [ reflexivity |].
  exact (Utf8Facts.decode_scalar _ _ Hd).
Qed.

Lemma encode_written_text body :
  Utf8.encode (translate_newlines t) = Some body ->
  Utf8.encode
    (concat (commented_header c ++ [[LF]]
             ++ split_lines (translate_newlines t)))
  = Some (header_bytes c ++ byte_of LF :: body).
Proof.
  intros Hb. rewrite !concat_app, concat_split_lines.
  apply Utf8Facts.encode_app;
    [ exact (header_text_encode _ (LICENSE_MAP_marker _ _ Hc)) |].
  apply (Utf8Facts.encode_app [LF] _ [byte_of LF]); [ reflexivity | exact Hb ].
Qed.

Lemma add_header_injects body :
  f_writable f = true ->
  Utf8.encode (translate_newlines t) = Some body ->
  add_header path w =
  (Return tt,
   World (<[path := File (header_bytes c ++ byte_of LF :: body) true true]> (fs w))
         (trace w ++ [EvOpen path ModeR; EvOpen path ModeW;
                      EvWrite path (header_bytes c ++ byte_of LF :: body)])).
Proof.
  intros Hw Hb. rewrite add_header_supported. io_unfold. unfold open_r, readlines.
  cbn [log fs]. rewrite Hf, Hr, Hd. io_unfold. rewrite Hl. unfold open_w.
  cbn [log fs]. rewrite Hf, Hw. unfold writelines.
  rewrite (encode_written_text _ Hb). cbn [log fs trace].
  rewrite lookup_insert_eq. cbn [f_readable f_writable].
  rewrite insert_insert_eq, Hr, <- !app_assoc. reflexivity.
Qed.

End RunFacts.

(** ** Every call has one of the six outcomes *)

Lemma add_header_outcome path c w :
  LICENSE_MAP !! suffix path = Some c ->
  outcome path c w (add_header path w).1 (add_header path w).2.
Proof.
  intros Hc.
  destruct (fs w !! path) as [f |] eqn:Hf.
  2: { rewrite (add_header_missing _ _ _ Hc Hf). by constructor. }
  destruct (f_readable f) eqn:Hr.
  2: { rewrite (add_header_unreadable _ _ _ Hc _ Hf Hr). by econstructor. }
  destruct (Utf8.decode (f_bytes f)) as [t |] eqn:Hd.
  2: { rewrite (add_header_undecodable _ _ _ Hc _ Hf Hr Hd). by econstructor. }
  destruct (already_licensed (split_lines (translate_newlines t))) eqn:Hl.
  { rewrite (add_header_licensed _ _ _ Hc _ Hf Hr _ Hd Hl). by econstructor. }
  destruct (f_writable f) eqn:Hw.
  2: { rewrite (add_header_unwritable _ _ _ Hc _ Hf Hr _ Hd Hl Hw). by econstructor. }
  destruct (encode_read_text _ _ Hd) as [body Hb].
  rewrite (add_header_injects _ _ _ Hc _ Hf Hr _ Hd Hl _ Hw Hb). by econstructor.
Qed.

Lemma add_header_inv path c w r w1 :
  LICENSE_MAP !! suffix path = Some c ->
  add_header path w = (r, w1) -> outcome path c w r w1.
Proof.
  intros Hc Hrun. pose proof (add_header_outcome path c w Hc) as H.
  rewrite Hrun in H. exact H.
Qed.

(** ** Reading a file back after an injection *)

Lemma injected_text_no_CR c t :
  c = "#"%string \/ c = "//"%string ->
  Forall (fun z => z <> CR)
         (concat (commented_header c ++ [[LF]]
                  ++ split_lines (translate_newlines t))).
Proof.
  intros Hm. rewrite !concat_app, concat_split_lines.
  apply Forall_app. split; [ exact (header_text_no_CR _ Hm) |].
  apply Forall_app. split; [| apply translate_newlines_no_CR ].
  repeat constructor. unfold LF, CR. lia.
Qed.

Lemma split_lines_injected c t :
  c = "#"%string \/ c = "//"%string ->
  split_lines (concat (commented_header c ++ [[LF]]
                       ++ split_lines (translate_newlines t)))
  = commented_header c ++ [[LF]] ++ split_lines (translate_newlines t).
Proof.
  intros Hm. rewrite app_assoc, concat_app, concat_split_lines.
  rewrite split_lines_concat; [ reflexivity |].
  apply Forall_app. split; [ exact (header_lines_complete _ Hm) |].
  repeat constructor.
Qed.

(** The lines of a file that received a header: the header lines, one
    empty line, and the lines that were read before. *)
Lemma read_lines_injected path c t body :
  LICENSE_MAP !! suffix path = Some c ->
  Utf8.encode (translate_newlines t) = Some body ->
  read_lines (header_bytes c ++ byte_of LF :: body)
  = Some (commented_header c ++ [[LF]] ++ split_lines (translate_newlines t)).
Proof.
  intros Hc Hb. pose proof (LICENSE_MAP_marker _ _ Hc) as Hm.
  unfold read_lines.
  rewrite (Utf8Facts.encode_decode _ _ (encode_written_text _ _ Hc _ _ Hb)).
  cbn [fmap option_fmap option_map].
  rewrite (translate_newlines_id _ (injected_text_no_CR _ t Hm)).
  rewrite (split_lines_injected _ _ Hm). reflexivity.
Qed.

Lemma injected_is_licensed c ls :
  c = "#"%string \/ c = "//"%string ->
  already_licensed (commented_header c ++ ls) = true.
Proof.
  intros Hm. destruct (header_third_line _ Hm) as (l & Hl & Hmark).
  apply (existsb_take_lookup _ 15 2 _ l); [ lia | | exact Hmark ].
  rewrite lookup_app_l; [ exact Hl |].
  apply lookup_lt_Some in Hl. exact Hl.
Qed.

(** A call that returns either found the file licensed or gave it a
    header. *)
Lemma add_header_returns path c w w1 :
  LICENSE_MAP !! suffix path = Some c ->
  add_header path w = (Return tt, w1) ->
  exists f t,
    fs w !! path = Some f /\ f_readable f = true
    /\ Utf8.decode (f_bytes f) = Some t
    /\ ((already_licensed (split_lines (translate_newlines t)) = true
         /\ w1 = log (EvOpen path ModeR) w)
        \/ (already_licensed (split_lines (translate_newlines t)) = false
            /\ f_writable f = true
            /\ exists body,
                 Utf8.encode (translate_newlines t) = Some body
                 /\ w1 = World
                           (<[path := File (header_bytes c ++ byte_of LF :: body)
                                           true true]> (fs w))
                           (trace w ++
                            [EvOpen path ModeR; EvOpen path ModeW;
                             EvWrite path (header_bytes c ++ byte_of LF :: body)]))).
Proof.
  intros Hc Hrun. pose proof (add_header_inv _ _ _ _ _ Hc Hrun) as Ho.
  inversion Ho; subst; exists f, t; repeat (split; [ assumption |]).
  - left. split; [ assumption | reflexivity ].
  - right. repeat (split; [ assumption |]). exists body. split; [ assumption |].
    reflexivity.
Qed.

(** What a file that was changed holds afterwards. *)
Lemma changed_file_content path c w f w1 :
  LICENSE_MAP !! suffix path = Some c ->
  fs w !! path = Some f ->
  add_header path w = (Return tt, w1) ->
  content w1 path <> content w path ->
  exists t body,
    Utf8.decode (f_bytes f) = Some t
    /\ Utf8.encode (translate_newlines t) = Some body
    /\ content w1 path = Some (header_bytes c ++ byte_of LF :: body)
    /\ (Forall (fun b => b <> byte_of CR) (f_bytes f) -> body = f_bytes f).
Proof.
  intros Hc Hf Hrun Hchg.
  destruct (add_header_returns _ _ _ _ Hc Hrun)
    as (f' & t & Hf' & Hr & Hd & [[Hl ->] | (Hl & Hw & body & Hb & ->)]).
  - exfalso. apply Hchg. reflexivity.
  - rewrite Hf in Hf'. injection Hf' as <-.
    exists t, body. repeat split; try assumption.
    + unfold content. cbn [fs]. rewrite lookup_insert_eq. reflexivity.
    + intros Hcr.
      assert (translate_newlines t = t) as Ht.
      { apply translate_newlines_id. apply Forall_forall. intros z Hz ->.
        apply Utf8Facts.decode_encode in Hd.
        pose proof (Utf8Facts.encode_CR_byte _ _ Hd Hz) as Hin.
        rewrite Forall_forall in Hcr. exact (Hcr _ Hin eq_refl). }
      rewrite Ht in Hb. apply Utf8Facts.decode_encode in Hd. congruence.
Qed.


(** * The claims *)

(** C1 (idempotence of inject).  For a path whose extension is in the
    table, a second call right after a first one has the same result as
    the first, leaves every file as the first call left it and writes
    nothing.  When the first call returned, the second asks for one read
    only and finds the file licensed: a line containing
    "Licensed under the Apache License" is among its first 15 lines, and
    when the first call wrote the header, that line is the file's third. *)
Theorem inject_idempotent path w r1 w1 r2 w2 :
  is_Some (LICENSE_MAP !! suffix path) ->
  add_header path w = (r1, w1) ->
  add_header path w1 = (r2, w2) ->
  r2 = r1
  /\ fs w2 = fs w1
  /\ Forall (fun e => forall data, e <> EvWrite path data)
            (drop (length (trace w1)) (trace w2))
  /\ (r1 = Return tt ->
      trace w2 = trace w1 ++ [EvOpen path ModeR]
      /\ exists f lines,
           fs w1 !! path = Some f /\ read_lines (f_bytes f) = Some lines
           /\ already_licensed lines = true)
  /\ (forall data,
        trace w1 = trace w ++ [EvOpen path ModeR; EvOpen path ModeW;
                               EvWrite path data] ->
        exists lines l,
          read_lines data = Some lines /\ lines !! 2%nat = Some l
          /\ contains LICENSED_MARK l = true).
Proof.
  intros [c Hc] H1 H2.
  pose proof (LICENSE_MAP_marker _ _ Hc) as Hm.
  destruct (add_header_inv _ _ _ _ _ Hc H1)
    as [ Hf | f Hf Hr | f Hf Hr Hd | f t Hf Hr Hd Hl | f t Hf Hr Hd Hl Hw
       | f t body Hf Hr Hd Hl Hw Hb ].
  - rewrite (add_header_missing _ _ _ Hc) in H2 by exact Hf.
    injection H2 as <- <-. cbn [log fs trace]. rewrite drop_app_length.
    repeat split; try discriminate.
    + repeat constructor. discriminate.
    + intros data Ht. apply app_inv_head in Ht. discriminate.
  - rewrite (add_header_unreadable _ _ _ Hc f) in H2 by assumption.
    injection H2 as <- <-. cbn [log fs trace]. rewrite drop_app_length.
    repeat split; try discriminate.
    + repeat constructor. discriminate.
    + intros data Ht. apply app_inv_head in Ht. discriminate.
  - rewrite (add_header_undecodable _ _ _ Hc f) in H2 by assumption.
    injection H2 as <- <-. cbn [log fs trace]. rewrite drop_app_length.
    repeat split; try discriminate.
    + repeat constructor. discriminate.
    + intros data Ht. apply app_inv_head in Ht. discriminate.
  - rewrite (add_header_licensed path (log (EvOpen path ModeR) w) c Hc f Hf Hr t Hd Hl)
      in H2.
    injection H2 as <- <-. cbn [log fs trace]. rewrite drop_app_length.
    repeat split.
    + repeat constructor. discriminate.
    + exists f, (split_lines (translate_newlines t)).
      unfold read_lines. rewrite Hd. auto.
    + intros data Ht. apply app_inv_head in Ht. discriminate.
  - rewrite (add_header_unwritable path (log (EvOpen path ModeW) (log (EvOpen path ModeR) w))
               c Hc f Hf Hr t Hd Hl Hw) in H2.
    injection H2 as <- <-. cbn [log fs trace].
    rewrite <- (app_assoc ((trace w ++ [EvOpen path ModeR]) ++ [EvOpen path ModeW])).
    rewrite drop_app_length.
    repeat split; try discriminate.
    + repeat constructor; discriminate.
    + intros data Ht. rewrite <- app_assoc in Ht.
      apply app_inv_head in Ht. discriminate.
  - pose proof (Utf8Facts.encode_decode _ _ (encode_written_text _ _ Hc _ _ Hb))
      as Hd'.
    set (data := header_bytes c ++ byte_of LF :: body) in *.
    set (t' := concat (commented_header c ++ [[LF]]
                       ++ split_lines (translate_newlines t))) in *.
    assert (split_lines (translate_newlines t')
            = commented_header c ++ [[LF]] ++ split_lines (translate_newlines t))
      as Hread.
    { unfold t'. rewrite translate_newlines_id by apply injected_text_no_CR, Hm.
      apply split_lines_injected, Hm. }
    assert (already_licensed (split_lines (translate_newlines t')) = true) as Hl'.
    { rewrite Hread. apply injected_is_licensed, Hm. }
    rewrite (add_header_licensed _ _ _ Hc (File data true true)) with (t := t')
      in H2; [ | cbn [fs]; apply lookup_insert_eq | reflexivity | exact Hd'
             | exact Hl' ].
    injection H2 as <- <-. cbn [log fs trace]. rewrite drop_app_length.
    repeat split.
    + repeat constructor. discriminate.
    + exists (File data true true), (split_lines (translate_newlines t')).
      rewrite lookup_insert_eq. unfold read_lines. cbn [f_bytes].
      rewrite Hd'. auto.
    + intros data' Ht. apply app_inv_head in Ht. injection Ht as <-.
      destruct (header_third_line _ Hm) as (l & Hl3 & Hmark).
      exists (split_lines (translate_newlines t')), l.
      unfold read_lines. rewrite Hd'. split; [ reflexivity |].
      split; [| exact Hmark ]. rewrite Hread.
      rewrite lookup_app_l; [ exact Hl3 |].
      apply lookup_lt_Some in Hl3. exact Hl3.
Qed.

Lemma inject_idempotent_witness :
  let w := scenario_a in
  let w1 := (add_header "a.py" w).2 in
  let w2 := (add_header "a.py" w1).2 in
  is_Some (LICENSE_MAP !! suffix "a.py")
  /\ add_header "a.py" w = (Return tt, w1)
  /\ add_header "a.py" w1 = (Return tt, w2)
  /\ fs w2 = fs w1.
Proof.
  intros w w1 w2.
  assert (is_Some (LICENSE_MAP !! suffix "a.py")) as H0
    by (exists "#"%string; vm_compute; reflexivity).
  assert (add_header "a.py" w = (Return tt, w1)) as H1
    by (vm_compute; reflexivity).
  assert (add_header "a.py" w1 = (Return tt, w2)) as H2
    by (vm_compute; reflexivity).
  repeat (split; [ assumption |]).
  exact (proj1 (proj2 (inject_idempotent "a.py" w _ w1 _ w2 H0 H1 H2))).
Defined.

(** C2, as stated, fails on a file with a carriage return: [a.py] holds
    ["x\r\n"]; it receives a header, and what follows the header and the
    empty line is ["x\n"], one byte shorter than the file was. *)
Lemma content_preservation_fails_on_crlf :
  let before := [ "x"; "013"; "010" ]%char in
  let w := World {[ "a.py"%string := File before true true ]} [] in
  exists w1,
    add_header "a.py" w = (Return tt, w1)
    /\ content w1 "a.py"
       = Some (header_bytes "#" ++ byte_of LF :: [ "x"; "010" ]%char)
    /\ content w1 "a.py" <> Some (header_bytes "#" ++ byte_of LF :: before).
Proof.
  intros before w. exists (add_header "a.py" w).2.
  split; [ vm_compute; reflexivity |].
  split; [ vm_compute; reflexivity |].
  vm_compute. discriminate.
Qed.

(** C2 (content preservation), amended.  For every file that receives a
    header, what follows the header block and the single empty line is the
    file's content before the call as it is read in text mode: the same
    text with every ["\r\n"] and every lone ["\r"] turned into ["\n"].  It
    is byte for byte the content before the call when that content holds
    no carriage return. *)
Theorem content_preserved_up_to_newlines path c w f w1 :
  LICENSE_MAP !! suffix path = Some c ->
  fs w !! path = Some f ->
  add_header path w = (Return tt, w1) ->
  content w1 path <> content w path ->
  exists t body,
    Utf8.decode (f_bytes f) = Some t
    /\ Utf8.encode (translate_newlines t) = Some body
    /\ content w1 path = Some (header_bytes c ++ byte_of LF :: body)
    /\ (Forall (fun b => b <> byte_of CR) (f_bytes f) -> body = f_bytes f).
Proof. apply changed_file_content. Qed.

Lemma content_preserved_up_to_newlines_witness :
  let w := scenario_a in
  let w1 := (add_header "a.py" w).2 in
  exists body,
    content w1 "a.py" = Some (header_bytes "#" ++ byte_of LF :: body)
    /\ body = bytes_lit "print('hi')" ++ [byte_of LF].
Proof.
  intros w w1.
  assert (LICENSE_MAP !! suffix "a.py" = Some "#"%string) as Hc
    by (vm_compute; reflexivity).
  assert (fs w !! "a.py"%string
          = Some (File (bytes_lit "print('hi')" ++ [byte_of LF]) true true)) as Hf
    by (vm_compute; reflexivity).
  assert (add_header "a.py" w = (Return tt, w1)) as Hrun
    by (vm_compute; reflexivity).
  assert (content w1 "a.py" <> content w "a.py") as Hchg
    by (vm_compute; discriminate).
  destruct (content_preserved_up_to_newlines "a.py" "#" w _ w1 Hc Hf Hrun Hchg)
    as (t & body & _ & _ & Hcontent & Hsame).
  exists body. split; [ exact Hcontent |].
  apply Hsame. cbn [f_bytes]. apply List.Forall_forall. intros b Hb.
  vm_compute in Hb. intros ->. vm_compute in Hb. intuition discriminate.
Defined.

(** ** The marker in the header lines *)

Lemma starts_with_app a b : starts_with a (a ++ b) = true.
Proof.
  induction a as [| x a IH ]; [ reflexivity |].
  cbn [app starts_with]. rewrite Z.eqb_refl, IH. reflexivity.
Qed.

Lemma header_lines_start_with_marker c :
  c = "#"%string \/ c = "//"%string ->
  Forall (fun l => starts_with (py_str c) l = true) (commented_header c).
Proof.
  intros [-> | ->]; unfold commented_header, LICENSE_LINES; cbn [map];
    repeat (constructor; [ vm_compute; reflexivity |]); constructor.
Qed.

(** C3 (extension dispatch).  The table holds exactly the eight entries
    [.sh -> #], [.rs -> //], [.py -> #], [.go -> //], [.js -> //],
    [.jsx -> //], [.ts -> //], [.tsx -> //], looked up by exact,
    case-sensitive match with the leading dot.  For a path whose extension
    is in the table, every header line begins with the table's marker and a
    file that is changed begins with the header rendered with that marker.
    For a path whose extension is not in the table (none at all included),
    the call returns without an error and changes nothing. *)
Theorem extension_dispatch path w r w1 :
  add_header path w = (r, w1) ->
  (forall ext c,
     LICENSE_MAP !! ext = Some c <->
     In (ext, c)
        [ (".sh", "#"); (".rs", "//"); (".py", "#"); (".go", "//");
          (".js", "//"); (".jsx", "//"); (".ts", "//"); (".tsx", "//") ]%string)
  /\ LICENSE_MAP !! ".PY"%string = None
  /\ LICENSE_MAP !! "py"%string = None
  /\ LICENSE_MAP !! EmptyString = None
  /\ (forall c,
        LICENSE_MAP !! suffix path = Some c ->
        Forall (fun l => starts_with (py_str c) l = true) (commented_header c)
        /\ (content w1 path <> content w path ->
            exists body,
              content w1 path = Some (header_bytes c ++ byte_of LF :: body)))
  /\ (LICENSE_MAP !! suffix path = None -> r = Return tt /\ w1 = w).
Proof.
  intros Hrun. split; [| split; [| split; [| split; [| split ]]]].
  - intros ext c. rewrite LICENSE_MAP_lookup. cbn [In]. split.
    + intros H. repeat (destruct H as [[-> ->] | H]; [ tauto |]).
      destruct H as [-> ->]. tauto.
    + intros H. repeat (destruct H as [[= <- <-] | H]; [ tauto |]). destruct H.
  - vm_compute. reflexivity.
  - vm_compute. reflexivity.
  - vm_compute. reflexivity.
  - intros c Hc. pose proof (LICENSE_MAP_marker _ _ Hc) as Hm.
    split; [ exact (header_lines_start_with_marker _ Hm) |].
    intros Hchg.
    destruct (add_header_inv _ _ _ _ _ Hc Hrun);
      try (exfalso; apply Hchg; reflexivity).
    exists body. unfold content. cbn [fs]. rewrite lookup_insert_eq. reflexivity.
  - intros Hnone. rewrite (add_header_unsupported _ _ Hnone) in Hrun.
    injection Hrun as <- <-. split; reflexivity.
Qed.

Lemma extension_dispatch_witness :
  let w := scenario_a in
  let w1 := (add_header "a.py" w).2 in
  add_header "a.py" w = (Return tt, w1)
  /\ exists body, content w1 "a.py" = Some (header_bytes "#" ++ byte_of LF :: body).
Proof.
  intros w w1.
  assert (add_header "a.py" w = (Return tt, w1)) as Hrun
    by (vm_compute; reflexivity).
  split; [ exact Hrun |].
  destruct (extension_dispatch "a.py" w _ w1 Hrun) as (_ & _ & _ & _ & H & _).
  apply (H "#"%string); [ vm_compute; reflexivity | vm_compute; discriminate ].
Defined.

(** C4, as stated, fails on a file with a lone carriage return: [b.go]
    holds ["a\rb"]; the header and the empty line are followed by
    ["a\nb"], which is not the content the file had. *)
Lemma header_shape_fails_on_cr :
  let before := [ "a"; "013"; "b" ]%char in
  let w := World {[ "b.go"%string := File before true true ]} [] in
  exists w1 data,
    add_header "b.go" w = (Return tt, w1)
    /\ content w1 "b.go" = Some data
    /\ take (length (header_bytes "//") + 1) data
       = header_bytes "//" ++ [byte_of LF]
    /\ drop (length (header_bytes "//") + 1) data = [ "a"; "010"; "b" ]%char
    /\ drop (length (header_bytes "//") + 1) data <> before.
Proof.
  intros before w.
  exists (add_header "b.go" w).2,
         (header_bytes "//" ++ byte_of LF :: [ "a"; "010"; "b" ]%char).
  repeat split; try (vm_compute; reflexivity).
  vm_compute. discriminate.
Qed.

(** C4 (header shape), amended.  Whenever a header is injected, the
    written file begins with exactly 13 commented lines, one per License
    Notice line, each a complete line that starts with the marker; one
    empty line follows; then comes the prior content as it is read in text
    mode, every ["\r\n"] and lone ["\r"] turned into ["\n"] -- the prior
    content itself when it holds no carriage return.  This holds for every
    supported marker and every input file. *)
Theorem header_shape path c w f w1 :
  LICENSE_MAP !! suffix path = Some c ->
  fs w !! path = Some f ->
  add_header path w = (Return tt, w1) ->
  content w1 path <> content w path ->
  length (commented_header c) = 13%nat
  /\ length (commented_header c) = length LICENSE_LINES
  /\ Forall (fun l => starts_with (py_str c) l = true /\ is_line l = true)
            (commented_header c)
  /\ exists t body,
       Utf8.decode (f_bytes f) = Some t
       /\ Utf8.encode (translate_newlines t) = Some body
       /\ content w1 path
          = Some (map byte_of (concat (commented_header c))
                  ++ [byte_of LF] ++ body)
       /\ (content w1 path ≫= read_lines)
          = Some (commented_header c ++ [[LF]]
                  ++ split_lines (translate_newlines t))
       /\ (Forall (fun b => b <> byte_of CR) (f_bytes f) -> body = f_bytes f).
Proof.
  intros Hc Hf Hrun Hchg. pose proof (LICENSE_MAP_marker _ _ Hc) as Hm.
  split; [ unfold commented_header; rewrite length_map; reflexivity |].
  split; [ unfold commented_header; rewrite length_map; reflexivity |].
  split.
  { apply Forall_and. split;
      [ exact (header_lines_start_with_marker _ Hm)
      | exact (header_lines_complete _ Hm) ]. }
  destruct (changed_file_content _ _ _ _ _ Hc Hf Hrun Hchg)
    as (t & body & Hd & Hb & Hcontent & Hsame).
  exists t, body. split; [ exact Hd |]. split; [ exact Hb |].
  split; [ exact Hcontent |]. split; [| exact Hsame ].
  rewrite Hcontent. cbn [mbind option_bind].
  exact (read_lines_injected _ _ _ _ Hc Hb).
Qed.

Lemma header_shape_witness :
  let w := scenario_a in
  let w1 := (add_header "a.py" w).2 in
  (content w1 "a.py" ≫= read_lines)
  = Some (commented_header "#" ++ [[LF]] ++ [py_str "print('hi')" ++ [LF]]).
Proof.
  intros w w1.
  assert (LICENSE_MAP !! suffix "a.py" = Some "#"%string) as Hc
    by (vm_compute; reflexivity).
  assert (fs w !! "a.py"%string
          = Some (File (bytes_lit "print('hi')" ++ [byte_of LF]) true true)) as Hf
    by (vm_compute; reflexivity).
  assert (add_header "a.py" w = (Return tt, w1)) as Hrun
    by (vm_compute; reflexivity).
  assert (content w1 "a.py" <> content w "a.py") as Hchg
    by (vm_compute; discriminate).
  destruct (header_shape "a.py" "#" w _ w1 Hc Hf Hrun Hchg)
    as (_ & _ & _ & t & body & Hd & _ & _ & Hlines & _).
  rewrite Hlines. vm_compute in Hd. injection Hd as <-. reflexivity.
Defined.

(** ** Trimming *)

Lemma rstrip_app a b : rstrip b <> [] -> rstrip (a ++ b) = a ++ rstrip b.
Proof.
  intros Hb. induction a as [| x a IH ]; [ reflexivity |].
  cbn [app rstrip]. rewrite IH.
  destruct (a ++ rstrip b) eqn:E; [| reflexivity ].
  apply app_eq_nil in E. destruct E as [_ E]. contradiction.
Qed.

(** C5 (header line rendering).  For every line of the License Notice and
    every marker: a non-empty notice line is rendered as the marker, one
    space, the notice line with its trailing whitespace trimmed, and one
    line feed; an empty notice line is rendered as the bare marker, with
    no space after it, and one line feed.  (No notice line has trailing
    whitespace, so trimming leaves each as it is.) *)
Theorem header_line_rendering (comment line : string) :
  In line LICENSE_LINES ->
  (line = EmptyString ->
   render_line (py_str comment) (py_str line) = py_str comment ++ [LF])
  /\ (line <> EmptyString ->
      render_line (py_str comment) (py_str line)
      = py_str comment ++ [byte_val " "] ++ rstrip (py_str line) ++ [LF]
      /\ rstrip (py_str line) = py_str line).
Proof.
  intros Hin. split.
  - intros ->. reflexivity.
  - intros Hne.
    assert (rstrip (py_str line) = py_str line /\ py_str line <> []) as [Hr Hn].
    { cbn [In LICENSE_LINES] in Hin.
      repeat (destruct Hin as [<- | Hin];
              [ first [ contradiction
                      | split; [ vm_compute; reflexivity | vm_compute; discriminate ] ]
              |]).
      destruct Hin. }
    split; [| exact Hr ].
    unfold render_line. destruct (py_str line) as [| z zs ] eqn:E;
      [ contradiction |].
    change (py_str " ") with [byte_val " "].
    rewrite app_assoc, rstrip_app by (rewrite Hr; discriminate).
    rewrite <- !app_assoc. reflexivity.
Qed.

Lemma header_line_rendering_witness :
  render_line (py_str "//") (py_str "limitations under the License.")
  = py_str "// limitations under the License." ++ [LF]
  /\ render_line (py_str "//") (py_str EmptyString) = py_str "//" ++ [LF].
Proof.
  split.
  - assert (In "limitations under the License."%string LICENSE_LINES) as Hin
      by (vm_compute; tauto).
    destruct (header_line_rendering "//" _ Hin) as [_ H].
    destruct (H ltac:(discriminate)) as [-> ->]. reflexivity.
  - assert (In EmptyString LICENSE_LINES) as Hin by (vm_compute; tauto).
    destruct (header_line_rendering "//" _ Hin) as [H _].
    exact (H eq_refl).
Defined.

(** ** Substrings *)

Lemma starts_with_spec pat s :
  starts_with pat s = true <-> exists b, s = pat ++ b.
Proof.
  revert s. induction pat as [| p pat IH ]; intros s.
  - split; [ intros _; exists s; reflexivity | reflexivity ].
  - destruct s as [| x s ]; cbn [starts_with app].
    + split; [ discriminate | intros [b [=]] ].
    + rewrite andb_true_iff, Z.eqb_eq, IH. split.
      * intros [-> [b ->]]. exists b. reflexivity.
      * intros [b [= -> ->]]. split; [ reflexivity | exists b; reflexivity ].
Qed.

(** [contains pat s] holds exactly when [pat] is a substring of [s]. *)
Lemma contains_spec pat s :
  contains pat s = true <-> exists a b, s = a ++ pat ++ b.
Proof.
  induction s as [| x s IH ].
  - cbn [contains]. rewrite orb_false_r, starts_with_spec. split.
    + intros [b ->]. exists [], b. reflexivity.
    + intros (a & b & H). destruct a as [| ? ? ]; [ exists b; exact H |].
      discriminate.
  - cbn [contains]. rewrite orb_true_iff, starts_with_spec, IH. split.
    + intros [[b ->] | (a & b & ->)].
      * exists [], b. reflexivity.
      * exists (x :: a), b. reflexivity.
    + intros (a & b & H). destruct a as [| y a ].
      * left. exists b. exact H.
      * right. injection H as -> ->. exists a, b. reflexivity.
Qed.

Lemma already_licensed_true lines :
  already_licensed lines = true <->
  exists l a b, l ∈ take 15 lines /\ l = a ++ LICENSED_MARK ++ b.
Proof.
  unfold already_licensed. rewrite existsb_exists. split.
  - intros (l & Hin & (a & b & ->)%contains_spec).
    exists (a ++ LICENSED_MARK ++ b), a, b.
    split; [ apply list_elem_of_In, Hin | reflexivity ].
  - intros (l & a & b & Hin & ->). exists (a ++ LICENSED_MARK ++ b).
    split; [ apply list_elem_of_In, Hin | apply contains_spec; eauto ].
Qed.

(** C6 (already-licensed skip).  For a readable file with a supported
    extension: if one of the first 15 lines of its content has
    "Licensed under the Apache License" as a substring, the call returns
    without an error, having asked only to read the file, and the file
    system is as it was; if none of the first 15 lines has it, a writable
    file receives the header, whatever the later lines hold. *)
Theorem already_licensed_skip path c w f lines :
  LICENSE_MAP !! suffix path = Some c ->
  fs w !! path = Some f ->
  f_readable f = true ->
  read_lines (f_bytes f) = Some lines ->
  ((exists l a b, l ∈ take 15 lines /\ l = a ++ LICENSED_MARK ++ b) ->
   exists w1,
     add_header path w = (Return tt, w1)
     /\ fs w1 = fs w /\ trace w1 = trace w ++ [EvOpen path ModeR])
  /\ ((forall l a b, l ∈ take 15 lines -> l <> a ++ LICENSED_MARK ++ b) ->
      f_writable f = true ->
      exists w1 body,
        add_header path w = (Return tt, w1)
        /\ content w1 path = Some (header_bytes c ++ byte_of LF :: body)
        /\ trace w1 = trace w ++ [EvOpen path ModeR; EvOpen path ModeW;
                                  EvWrite path (header_bytes c ++ byte_of LF :: body)]).
Proof.
  intros Hc Hf Hr Hread. unfold read_lines in Hread.
  destruct (Utf8.decode (f_bytes f)) as [t |] eqn:Hd; [| discriminate ].
  injection Hread as <-. split.
  - intros Hl%already_licensed_true.
    exists (log (EvOpen path ModeR) w).
    rewrite (add_header_licensed _ _ _ Hc _ Hf Hr _ Hd Hl). auto.
  - intros Hnone Hw.
    assert (already_licensed (split_lines (translate_newlines t)) = false) as Hl.
    { apply not_true_is_false. intros (l & a & b & Hin & ->)%already_licensed_true.
      exact (Hnone _ a b Hin eq_refl). }
    destruct (encode_read_text _ _ Hd) as [body Hb].
    eexists _, body.
    rewrite (add_header_injects _ _ _ Hc _ Hf Hr _ Hd Hl _ Hw Hb).
    split; [ reflexivity |]. split; [| reflexivity ].
    unfold content. cbn [fs]. rewrite lookup_insert_eq. reflexivity.
Qed.

Lemma already_licensed_skip_witness :
  (exists w1,
     add_header "main.go" scenario_b = (Return tt, w1)
     /\ fs w1 = fs scenario_b
     /\ trace w1 = trace scenario_b ++ [EvOpen "main.go" ModeR])
  /\ (exists w1 body,
        add_header "late.rs" late_notice = (Return tt, w1)
        /\ content w1 "late.rs" = Some (header_bytes "//" ++ byte_of LF :: body)
        /\ trace w1
           = trace late_notice ++
             [EvOpen "late.rs" ModeR; EvOpen "late.rs" ModeW;
              EvWrite "late.rs" (header_bytes "//" ++ byte_of LF :: body)]).
Proof.
  split.
  - set (l1 := py_str "package main" ++ [LF]).
    set (l2 := py_str "// Licensed under the Apache License, Version 2.0" ++ [LF]).
    refine (proj1 (already_licensed_skip "main.go" "//" scenario_b
                     (File _ true true) [l1; l2] _ _ _ _) _);
      try (vm_compute; reflexivity).
    exists l2, (py_str "// "), (py_str ", Version 2.0" ++ [LF]).
    split; [| vm_compute; reflexivity ].
    apply list_elem_of_In. vm_compute. tauto.
  - set (lines := replicate 15 [LF]
                  ++ [py_str "// Licensed under the Apache License" ++ [LF]]).
    refine (proj2 (already_licensed_skip "late.rs" "//" late_notice
                     (File _ true true) lines _ _ _ _) _ _);
      try (vm_compute; reflexivity).
    intros l a b Hin ->.
    assert (already_licensed lines = true) as H
      by (apply already_licensed_true; eauto).
    vm_compute in H. discriminate.
Defined.

(** ** The last dot of a filename *)

Section SuffixFacts.

Local Open Scope string_scope.

Lemma rfind_dot_spec s :
  (has_dot s = false /\ rfind "." s = -1)
  \/ (has_dot s = true /\ 0 <= rfind "." s < str_len s).
Proof.
  unfold str_len. induction s as [| a r IH ]; [ left; split; reflexivity |].
  cbn [has_dot rfind String.length].
  destruct IH as [[Hd Hj] | [Hd Hj]]; rewrite Hd, ?Hj.
  - rewrite orb_false_r. cbn. destruct (Ascii.eqb a "."); [ right | left ];
      split; try reflexivity; lia.
  - rewrite orb_true_r. right. split; [ reflexivity |].
    destruct (Z.leb_spec 0 (rfind "." r)); lia.
Qed.

Lemma spec_extension_no_dot s : has_dot s = false -> spec_extension s = "".
Proof.
  destruct s as [| a r ]; [ reflexivity |]. cbn [has_dot spec_extension].
  intros [Ha Hr]%orb_false_iff. rewrite Hr, Ha. reflexivity.
Qed.

Lemma str_drop_rfind s :
  has_dot s = true ->
  str_drop (Z.to_nat (rfind "." s)) s = spec_extension s.
Proof.
  induction s as [| a r IH ]; [ discriminate |].
  cbn [has_dot rfind spec_extension]. intros Hs.
  destruct (rfind_dot_spec r) as [[Hd Hj] | [Hd Hj]]; rewrite Hd, ?Hj.
  - rewrite Hd, orb_false_r in Hs. rewrite Hs. reflexivity.
  - destruct (Z.leb_spec 0 (rfind "." r)); [| lia ].
    rewrite Z2Nat.inj_add by lia. rewrite Nat.add_comm. cbn [Z.to_nat Pos.to_nat Pos.iter_op Nat.add str_drop].
    apply IH, Hd.
Qed.

Lemma rfind_zero s : rfind "." s = 0 <-> only_dot_leads s = true.
Proof.
  destruct s as [| a r ]; [ split; discriminate |].
  cbn [rfind only_dot_leads].
  destruct (rfind_dot_spec r) as [[Hd Hj] | [Hd Hj]]; rewrite Hd, ?Hj.
  - cbn. destruct (Ascii.eqb a "."); split; (reflexivity || discriminate).
  - destruct (Z.leb_spec 0 (rfind "." r)); [| lia ].
    rewrite andb_false_r. split; [ lia | discriminate ].
Qed.

Lemma ends_with_dot_has_dot s : ends_with_dot s = true -> has_dot s = true.
Proof.
  induction s as [| a r IH ]; [ discriminate |].
  cbn [ends_with_dot has_dot]. destruct r as [| b r' ].
  - intros ->. reflexivity.
  - intros H. rewrite (IH H). apply orb_true_r.
Qed.

Lemma rfind_last s :
  has_dot s = true ->
  (rfind "." s = str_len s - 1 <-> ends_with_dot s = true).
Proof.
  unfold str_len. induction s as [| a r IH ]; [ discriminate |].
  intros Hs. destruct r as [| b r' ].
  - cbn in *. rewrite orb_false_r in Hs. rewrite Hs. split; reflexivity.
  - change (ends_with_dot (String a (String b r')))
      with (ends_with_dot (String b r')).
    remember (String b r') as r eqn:Er.
    assert (1 <= Z.of_nat (String.length r)) as Hlen
      by (subst r; cbn [String.length]; lia).
    cbn [rfind String.length] in *.
    destruct (rfind_dot_spec r) as [[Hd Hj] | [Hd Hj]]; rewrite ?Hj.
    + cbn [has_dot] in Hs. rewrite Hd, orb_false_r in Hs. rewrite Hs. cbn.
      split; [ lia |]. intros He%ends_with_dot_has_dot. congruence.
    + destruct (Z.leb_spec 0 (rfind "." r)); [| lia ].
      rewrite <- (IH Hd). lia.
Qed.

Lemma spec_extension_ends_with_dot s :
  ends_with_dot s = true -> spec_extension s = ".".
Proof.
  induction s as [| a r IH ]; [ discriminate |].
  cbn [ends_with_dot spec_extension]. destruct r as [| b r' ].
  - intros ->%Ascii.eqb_eq. reflexivity.
  - intros H. rewrite (ends_with_dot_has_dot _ H). exact (IH H).
Qed.

End SuffixFacts.

(** C7, as stated, fails on a file named [.py]: the substring from the
    final dot is [.py], whose table entry is [#], but the extension the
    script looks up is empty and the file is skipped. *)
Lemma leading_dot_name_is_skipped :
  let w := World {[ ".py"%string := File (bytes_lit "x" ++ [byte_of LF]) true true ]} [] in
  spec_extension (path_name ".py") = ".py"%string
  /\ LICENSE_MAP !! spec_extension (path_name ".py") = Some "#"%string
  /\ suffix ".py" = EmptyString
  /\ LICENSE_MAP !! suffix ".py" = None
  /\ add_header ".py" w = (Return tt, w).
Proof.
  intros w. repeat split; vm_compute; reflexivity.
Qed.

(** C7 (extension extraction), amended.  For every path, the extension
    looked up in the table is the substring from the final [.] of the
    filename (the last component of the path) to its end, the dot included,
    unless that dot is the first or the last character of the filename:
    then the extension is empty.  So the rule decides the marker or the
    skip for filenames with several dots and for filenames ending in a dot
    (skipped either way), while a filename whose only dot is leading, such
    as [.py], is always skipped. *)
Theorem suffix_is_final_dot_extension path :
  let name := path_name path in
  suffix path
  = (if only_dot_leads name || ends_with_dot name then EmptyString
     else spec_extension name)
  /\ LICENSE_MAP !! suffix path
     = (if only_dot_leads name then None
        else LICENSE_MAP !! spec_extension name).
Proof.
  intros name.
  assert (suffix path
          = if only_dot_leads name || ends_with_dot name then EmptyString
            else spec_extension name) as Hs.
  { unfold suffix. fold name.
    destruct (rfind_dot_spec name) as [[Hd Hj] | [Hd Hj]].
    - rewrite Hj. cbn [Z.ltb Z.compare andb].
      destruct (only_dot_leads name) eqn:Ho;
        [ apply rfind_zero in Ho; lia |].
      destruct (ends_with_dot name) eqn:He;
        [ apply ends_with_dot_has_dot in He; congruence |].
      cbn [orb]. symmetry. apply spec_extension_no_dot, Hd.
    - destruct (only_dot_leads name) eqn:Ho.
      + apply rfind_zero in Ho. rewrite Ho. reflexivity.
      + destruct (ends_with_dot name) eqn:He; cbn [orb].
        * apply (rfind_last _ Hd) in He. rewrite He, Z.ltb_irrefl, andb_false_r.
          reflexivity.
        * assert (rfind "." name <> 0) as H0
            by (rewrite rfind_zero; congruence).
          assert (rfind "." name <> str_len name - 1) as H1
            by (rewrite (rfind_last _ Hd); congruence).
          destruct (Z.ltb_spec 0 (rfind "." name)); [| lia ].
          destruct (Z.ltb_spec (rfind "." name) (str_len name - 1)); [| lia ].
          apply str_drop_rfind, Hd. }
  split; [ exact Hs |]. rewrite Hs.
  destruct (only_dot_leads name); [ reflexivity |]. cbn [orb].
  destruct (ends_with_dot name) eqn:He; [| reflexivity ].
  rewrite (spec_extension_ends_with_dot _ He). reflexivity.
Qed.

(** Filenames with several dots, a trailing dot, no dot, and a dot in a
    directory name only. *)
Example suffix_examples :
  suffix "src/app.test.ts" = ".ts"%string
  /\ suffix "archive.tar.gz" = ".gz"%string
  /\ suffix "run.sh." = EmptyString
  /\ suffix "Makefile" = EmptyString
  /\ suffix "pkg.d/README" = EmptyString
  /\ suffix "notes.txt" = ".txt"%string
  /\ LICENSE_MAP !! suffix "notes.txt" = None.
Proof. repeat split; vm_compute; reflexivity. Qed.

(** ** The loop over the arguments *)

Lemma for_each_app pre post w :
  for_each (pre ++ post) w
  = match for_each pre w with
    | (Return _, w1) => for_each post w1
    | (Raise e, w1) => (Raise e, w1)
    end.
Proof.
  revert w. induction pre as [| file pre IH ]; intros w; [ reflexivity |].
  cbn [app for_each]. unfold mbind, io_mbind, io_bind.
  destruct (add_header file w) as [[[] | e] w1]; [ apply IH | reflexivity ].
Qed.

Lemma for_each_cons file rest w :
  for_each (file :: rest) w
  = match add_header file w with
    | (Return _, w1) => for_each rest w1
    | (Raise e, w1) => (Raise e, w1)
    end.
Proof. reflexivity. Qed.

Lemma for_each_raises pre file post w w1 e w2 :
  for_each pre w = (Return tt, w1) ->
  add_header file w1 = (Raise e, w2) ->
  for_each (pre ++ file :: post) w = (Raise e, w2).
Proof.
  intros Hpre Hfile. rewrite for_each_app, Hpre, for_each_cons, Hfile.
  reflexivity.
Qed.

Lemma main_cons argv0 files w :
  main (argv0 :: files) w
  = (exit_status (for_each files w).1, (for_each files w).2).
Proof.
  unfold main. change (drop 1 (argv0 :: files)) with files.
  destruct (for_each files w). reflexivity.
Qed.

(** C8 (entry-point error policy).  The arguments after the program name
    are handled one after the other in the order given, each call starting
    from the world the previous one left.  When every call returns, be it a
    skip or an injection, the exit status is 0.  When a call raises, the
    exception is not caught: the exit status is 1 and the run ends in the
    world that call left, whatever arguments follow.  In particular a
    missing or unreadable file with a supported extension ends the run
    right after the failed request to open it. *)
Theorem entry_point_policy argv0 files w :
  (forall pre file,
     for_each (pre ++ [file]) w
     = match for_each pre w with
       | (Return _, w1) => add_header file w1
       | (Raise e, w1) => (Raise e, w1)
       end)
  /\ (forall w', for_each files w = (Return tt, w') ->
                 main (argv0 :: files) w = (0, w'))
  /\ (forall pre file post w1 e w2,
        files = pre ++ file :: post ->
        for_each pre w = (Return tt, w1) ->
        add_header file w1 = (Raise e, w2) ->
        main (argv0 :: files) w = (1, w2))
  /\ (forall pre file post w1,
        files = pre ++ file :: post ->
        for_each pre w = (Return tt, w1) ->
        is_Some (LICENSE_MAP !! suffix file) ->
        fs w1 !! file = None
        \/ (exists f, fs w1 !! file = Some f /\ f_readable f = false) ->
        main (argv0 :: files) w = (1, log (EvOpen file ModeR) w1))
  /\ ((main (argv0 :: files) w).1 = 0 \/ (main (argv0 :: files) w).1 = 1).
Proof.
  rewrite !main_cons. repeat split.
  - intros pre file. rewrite for_each_app.
    destruct (for_each pre w) as [[[] | e] w1]; [| reflexivity ].
    rewrite for_each_cons.
    destruct (add_header file w1) as [[[] | e] w2]; reflexivity.
  - intros w' ->. reflexivity.
  - intros pre file post w1 e w2 -> Hpre Hfile.
    rewrite (for_each_raises _ _ _ _ _ _ _ Hpre Hfile). reflexivity.
  - intros pre file post w1 -> Hpre [c Hc] [Hf | (f & Hf & Hr)].
    + rewrite (for_each_raises _ _ post _ _ _ _ Hpre
                            (add_header_missing _ _ _ Hc Hf)). reflexivity.
    + rewrite (for_each_raises _ _ post _ _ _ _ Hpre
                            (add_header_unreadable _ _ _ Hc _ Hf Hr)).
      reflexivity.
  - destruct (for_each files w) as [[[] | e] w']; [ left | right ]; reflexivity.
Qed.

Lemma entry_point_policy_witness :
  main [ "add_license_header.py"; "a.py"; "main.go" ]%string scenario_b
  = (1, log (EvOpen "a.py" ModeR) scenario_b)
  /\ main [ "add_license_header.py"; "notes.txt"; "main.go" ]%string scenario_b
     = (0, log (EvOpen "main.go" ModeR) scenario_b).
Proof.
  split.
  - destruct (entry_point_policy "add_license_header.py"
                [ "a.py"; "main.go" ]%string scenario_b) as (_ & _ & _ & H & _).
    apply (H [] "a.py"%string [ "main.go"%string ]);
      [ reflexivity | reflexivity
      | exists "#"%string; vm_compute; reflexivity
      | left; vm_compute; reflexivity ].
  - destruct (entry_point_policy "add_license_header.py"
                [ "notes.txt"; "main.go" ]%string scenario_b) as (_ & H & _).
    apply H. vm_compute. reflexivity.
Defined.

(** C9 (empty-file injection).  A readable, writable file of zero bytes
    with a supported extension has no lines, so the licensed check finds
    nothing, and the call writes the 13 rendered header lines, one empty
    line and nothing else. *)
Theorem empty_file_injection path c w f :
  LICENSE_MAP !! suffix path = Some c ->
  fs w !! path = Some f ->
  f_bytes f = [] ->
  f_readable f = true ->
  f_writable f = true ->
  read_lines (f_bytes f) = Some []
  /\ already_licensed [] = false
  /\ add_header path w
     = (Return tt,
        World (<[path := File (header_bytes c ++ [byte_of LF]) true true]> (fs w))
              (trace w ++ [EvOpen path ModeR; EvOpen path ModeW;
                           EvWrite path (header_bytes c ++ [byte_of LF])]))
  /\ length (commented_header c) = 13%nat
  /\ read_lines (header_bytes c ++ [byte_of LF])
     = Some (commented_header c ++ [[LF]]).
Proof.
  intros Hc Hf Hb Hr Hw.
  assert (Utf8.decode (f_bytes f) = Some []) as Hd by (rewrite Hb; reflexivity).
  split; [ rewrite Hb; reflexivity |]. split; [ reflexivity |].
  split; [| split ].
  - apply (add_header_injects _ _ _ Hc _ Hf Hr [] Hd); reflexivity || assumption.
  - unfold commented_header. rewrite length_map. reflexivity.
  - rewrite (read_lines_injected path c [] [] Hc eq_refl).
    cbn [translate_newlines split_lines]. rewrite app_nil_r. reflexivity.
Qed.

Lemma empty_file_injection_witness :
  let w := World {[ "empty.sh"%string := File [] true true ]} [] in
  add_header "empty.sh" w
  = (Return tt,
     World (<["empty.sh"%string := File (header_bytes "#" ++ [byte_of LF]) true true]>
              (fs w))
           [EvOpen "empty.sh" ModeR; EvOpen "empty.sh" ModeW;
            EvWrite "empty.sh" (header_bytes "#" ++ [byte_of LF])]).
Proof.
  intros w.
  refine (proj1 (proj2 (proj2
            (empty_file_injection "empty.sh" "#" w (File [] true true)
                                  _ _ _ _ _))));
    vm_compute; reflexivity.
Defined.

(** C10 (unsupported extensions are decided before any file access).  For
    a path whose extension is not in the table, the call returns with the
    world as it was, no request to open the file in the trace, whatever the
    file system holds; so the program run on such a path alone exits with
    status 0 even when the path does not exist.  For a missing path whose
    extension is in the table, the request to open it fails and the run
    ends with status 1. *)
Theorem unsupported_decided_before_access path w :
  (LICENSE_MAP !! suffix path = None ->
   add_header path w = (Return tt, w)
   /\ forall argv0, main [argv0; path] w = (0, w))
  /\ (is_Some (LICENSE_MAP !! suffix path) ->
      fs w !! path = None ->
      add_header path w
      = (Raise FileNotFoundError, log (EvOpen path ModeR) w)
      /\ forall argv0 rest,
           main (argv0 :: path :: rest) w = (1, log (EvOpen path ModeR) w)).
Proof.
  split.
  - intros Hnone. pose proof (add_header_unsupported path w Hnone) as Hrun.
    split; [ exact Hrun |]. intros argv0.
    rewrite main_cons, for_each_cons, Hrun. reflexivity.
  - intros [c Hc] Hf. pose proof (add_header_missing _ _ _ Hc Hf) as Hrun.
    split; [ exact Hrun |]. intros argv0 rest.
    rewrite main_cons, for_each_cons, Hrun. reflexivity.
Qed.

Lemma unsupported_decided_before_access_witness :
  main [ "add_license_header.py"; "missing.txt" ]%string scenario_a
  = (0, scenario_a)
  /\ main [ "add_license_header.py"; "missing.py"; "a.py" ]%string scenario_a
     = (1, log (EvOpen "missing.py" ModeR) scenario_a).
Proof.
  split.
  - apply (proj1 (unsupported_decided_before_access "missing.txt" scenario_a)).
    vm_compute. reflexivity.
  - apply (proj2 (unsupported_decided_before_access "missing.py" scenario_a)).
    + exists "#"%string. vm_compute. reflexivity.
    + vm_compute. reflexivity.
Defined.

(** * Further properties of the script *)

(** ** One call and the rest of the file system *)

Lemma add_header_frame path q w :
  q <> path -> fs (add_header path w).2 !! q = fs w !! q.
Proof.
  intros Hq. destruct (LICENSE_MAP !! suffix path) as [c |] eqn:Hc.
  - destruct (add_header_outcome path c w Hc); cbn [log fs]; try reflexivity.
    apply lookup_insert_ne. congruence.
  - rewrite (add_header_unsupported _ _ Hc). reflexivity.
Qed.

Lemma add_header_local path w w' :
  fs w !! path = fs w' !! path ->
  (add_header path w).1 = (add_header path w').1
  /\ fs (add_header path w).2 !! path = fs (add_header path w').2 !! path.
Proof.
  intros Heq. destruct (LICENSE_MAP !! suffix path) as [c |] eqn:Hc.
  2: { rewrite !(add_header_unsupported _ _ Hc). split; [ reflexivity | exact Heq ]. }
  destruct (fs w !! path) as [f |] eqn:Hf; symmetry in Heq.
  2: { rewrite (add_header_missing _ w _ Hc Hf), (add_header_missing _ w' _ Hc Heq).
       cbn [log fs fst snd]. rewrite Hf, Heq. split; reflexivity. }
  destruct (f_readable f) eqn:Hr.
  2: { rewrite (add_header_unreadable _ w _ Hc _ Hf Hr),
         (add_header_unreadable _ w' _ Hc _ Heq Hr).
       cbn [log fs fst snd]. rewrite Hf, Heq. split; reflexivity. }
  destruct (Utf8.decode (f_bytes f)) as [t |] eqn:Hd.
  2: { rewrite (add_header_undecodable _ w _ Hc _ Hf Hr Hd),
         (add_header_undecodable _ w' _ Hc _ Heq Hr Hd).
       cbn [log fs fst snd]. rewrite Hf, Heq. split; reflexivity. }
  destruct (already_licensed (split_lines (translate_newlines t))) eqn:Hl.
  { rewrite (add_header_licensed _ w _ Hc _ Hf Hr _ Hd Hl),
      (add_header_licensed _ w' _ Hc _ Heq Hr _ Hd Hl).
    cbn [log fs fst snd]. rewrite Hf, Heq. split; reflexivity. }
  destruct (f_writable f) eqn:Hw.
  2: { rewrite (add_header_unwritable _ w _ Hc _ Hf Hr _ Hd Hl Hw),
         (add_header_unwritable _ w' _ Hc _ Heq Hr _ Hd Hl Hw).
       cbn [log fs fst snd]. rewrite Hf, Heq. split; reflexivity. }
  destruct (encode_read_text _ _ Hd) as [body Hb].
  rewrite (add_header_injects _ w _ Hc _ Hf Hr _ Hd Hl _ Hw Hb),
    (add_header_injects _ w' _ Hc _ Heq Hr _ Hd Hl _ Hw Hb).
  cbn [fs fst snd]. rewrite !lookup_insert_eq. split; reflexivity.
Qed.



(** X2.  The result of a call, and the file it leaves at its path, depend
    on nothing but the file found at that path: two worlds that agree there
    give the same result and the same file. *)
Theorem add_header_depends_on_its_file path w w' :
  fs w !! path = fs w' !! path ->
  (add_header path w).1 = (add_header path w').1
  /\ fs (add_header path w).2 !! path = fs (add_header path w').2 !! path.
Proof. apply add_header_local. Qed.

Lemma add_header_depends_on_its_file_witness :
  (add_header "a.py" scenario_a).1 = (add_header "a.py" two_files).1
  /\ fs (add_header "a.py" scenario_a).2 !! "a.py"%string
     = fs (add_header "a.py" two_files).2 !! "a.py"%string.
Proof.
  apply add_header_depends_on_its_file. vm_compute. reflexivity.
Defined.

(** X3.  The exceptions of a call, one by one.  [FileNotFoundError]: the
    extension is supported and the file is missing.  [UnicodeDecodeError]:
    the file is readable and is not valid UTF-8.  [PermissionError]: the
    file is unreadable, or it is readable text without the notice and is
    not writable.  [UnicodeEncodeError] is never raised: what was read can
    always be written.  Whatever is raised, the file system is as it was. *)
Theorem add_header_exceptions path w e w1 :
  add_header path w = (Raise e, w1) ->
  fs w1 = fs w
  /\ supported path = true
  /\ e <> UnicodeEncodeError
  /\ (e = FileNotFoundError <-> fs w !! path = None)
  /\ (e = UnicodeDecodeError <->
      exists f, fs w !! path = Some f /\ f_readable f = true
                /\ Utf8.decode (f_bytes f) = None)
  /\ (e = PermissionError <->
      exists f, fs w !! path = Some f
                /\ (f_readable f = false
                    \/ (f_readable f = true /\ f_writable f = false
                        /\ exists lines,
                             read_lines (f_bytes f) = Some lines
                             /\ already_licensed lines = false))).
Proof.
  intros Hrun. unfold supported.
  destruct (LICENSE_MAP !! suffix path) as [c |] eqn:Hc.
  2: { rewrite (add_header_unsupported _ _ Hc) in Hrun. discriminate. }
  pose proof (add_header_inv _ _ _ _ _ Hc Hrun) as Ho.
  inversion Ho; subst; cbn [log fs];
    (split; [ reflexivity |]); (split; [ reflexivity |]);
    (split; [ discriminate |]).
  - repeat split; try discriminate; auto.
    + intros (f & Hf & _). congruence.
    + intros (f & Hf & _). congruence.
  - repeat split; try discriminate; try congruence.
    + intros (f' & Hf & Hr & _). congruence.
    + intros _. exists f. auto.
  - repeat split; try discriminate; try congruence.
    + intros _. exists f. auto.
    + intros (f' & Hf & [Hr | (_ & _ & lines & Hread & _)]); [ congruence |].
      unfold read_lines in Hread. replace f' with f in Hread by congruence.
      match goal with H : Utf8.decode _ = None |- _ => rewrite H in Hread end.
      discriminate.
  - repeat split; try discriminate; try congruence.
    + intros (f' & Hf & _ & Hd). congruence.
    + intros _. exists f. split; [ assumption |]. right.
      repeat (split; [ assumption |]).
      exists (split_lines (translate_newlines t)). unfold read_lines.
      match goal with H : Utf8.decode _ = Some _ |- _ => rewrite H end. auto.
Qed.

Lemma add_header_exceptions_witness :
  let w := World {[ "bad.rs"%string := File [ "255"%char ] true true ]} [] in
  fs (add_header "bad.rs" w).2 = fs w
  /\ exists f, fs w !! "bad.rs"%string = Some f /\ f_readable f = true
               /\ Utf8.decode (f_bytes f) = None.
Proof.
  intros w.
  assert (add_header "bad.rs" w = (Raise UnicodeDecodeError, (add_header "bad.rs" w).2))
    as Hrun by (vm_compute; reflexivity).
  destruct (add_header_exceptions "bad.rs" w _ _ Hrun)
    as (Hfs & _ & _ & _ & Hdec & _).
  split; [ exact Hfs | exact (proj1 Hdec eq_refl) ].
Defined.

(** X4.  What a call asks of the operating system: nothing at all for an
    unsupported path; otherwise one request to read the path, then at most
    one request to open it for writing, then at most one write.  No other
    path is ever named, and data is written only by a call that returns,
    and is then the content of the file. *)
Theorem add_header_requests path w r w1 :
  add_header path w = (r, w1) ->
  exists evs,
    trace w1 = trace w ++ evs
    /\ (evs = [] <-> supported path = false)
    /\ (evs = []
        \/ evs = [EvOpen path ModeR]
        \/ (evs = [EvOpen path ModeR; EvOpen path ModeW]
            /\ r = Raise PermissionError)
        \/ exists data,
             evs = [EvOpen path ModeR; EvOpen path ModeW; EvWrite path data]
             /\ r = Return tt /\ content w1 path = Some data).
Proof.
  intros Hrun. unfold supported.
  destruct (LICENSE_MAP !! suffix path) as [c |] eqn:Hc.
  2: { rewrite (add_header_unsupported _ _ Hc) in Hrun. injection Hrun as <- <-.
       exists []. rewrite app_nil_r. repeat split; auto. }
  destruct (add_header_inv _ _ _ _ _ Hc Hrun); cbn [log trace].
  1-4: exists [EvOpen path ModeR]; split; [ reflexivity |];
       split; [ split; discriminate | auto ].
  - exists [EvOpen path ModeR; EvOpen path ModeW]. rewrite <- app_assoc.
    split; [ reflexivity |]. split; [ split; discriminate | auto ].
  - eexists. split; [ reflexivity |]. split; [ split; discriminate |].
    do 3 right. eexists. split; [ reflexivity |]. split; [ reflexivity |].
    unfold content. cbn [fs]. rewrite lookup_insert_eq. reflexivity.
Qed.

Lemma add_header_requests_witness :
  exists evs,
    trace (add_header "a.py" two_files).2 = trace two_files ++ evs
    /\ length evs = 3%nat.
Proof.
  assert (add_header "a.py" two_files
          = (Return tt, (add_header "a.py" two_files).2)) as Hrun
    by (vm_compute; reflexivity).
  destruct (add_header_requests "a.py" two_files _ _ Hrun)
    as (evs & Htrace & Hnil & Hshape).
  exists evs. split; [ exact Htrace |].
  destruct Hshape as [-> | [-> | [[-> Hr] | (data & -> & _)]]];
    [ | | discriminate Hr | reflexivity ].
  - apply proj1 in Hnil. specialize (Hnil eq_refl). vm_compute in Hnil.
    discriminate Hnil.
  - vm_compute in Htrace. discriminate Htrace.
Defined.

(** ** Line endings after an injection *)

Lemma encode_char_no_CR c bs :
  Utf8.encode_char c = Some bs -> c <> CR ->
  Forall (fun b => 0 <= b < 256 /\ b <> CR) bs.
Proof.
  intros Hc Hne. pose proof (Utf8Facts.encode_char_range _ _ Hc) as Hrange.
  revert Hc Hrange. unfold Utf8.encode_char, CR in *.
  destruct (Utf8.is_scalar c); cbn [negb]; [| discriminate ].
  repeat (case_match; Utf8Facts.zhyps); intros [= <-] Hrange;
    repeat (apply Forall_cons in Hrange; destruct Hrange as [? Hrange]);
    repeat constructor; try lia; Utf8Facts.zsolve.
Qed.

Lemma encode_no_CR t bs :
  Utf8.encode t = Some bs ->
  Forall (fun c => c <> CR) t ->
  Forall (fun b => b <> byte_of CR) bs.
Proof.
  unfold Utf8.encode.
  destruct (Utf8.encode_z t) as [zs |] eqn:Hz; [| discriminate ].
  intros [= <-] Ht. apply Forall_fmap.
  assert (Forall (fun b => 0 <= b < 256 /\ b <> CR) zs) as Hzs.
  { revert zs Hz. induction Ht as [| c t Hc _ IH ]; intros zs; cbn [Utf8.encode_z].
    - intros [= <-]. constructor.
    - destruct (Utf8.encode_char c) as [cs |] eqn:Hcs; [| discriminate ].
      destruct (Utf8.encode_z t) as [rs |]; [| discriminate ].
      intros [= <-]. apply Forall_app. split;
        [ exact (encode_char_no_CR _ _ Hcs Hc) | exact (IH rs eq_refl) ]. }
  eapply Forall_impl; [ exact Hzs |]. intros z [Hr Hne] Heq. apply Hne.
  rewrite <- (Utf8Facts.byte_val_of z Hr), Heq. reflexivity.
Qed.

(** X5.  A file that is changed by a call holds no carriage return
    afterwards: the header is written with line feeds and the old content
    comes back with every line ending turned into a line feed. *)
Theorem changed_file_has_no_CR path w w1 data :
  add_header path w = (Return tt, w1) ->
  content w1 path <> content w path ->
  content w1 path = Some data ->
  Forall (fun b => b <> byte_of CR) data.
Proof.
  intros Hrun Hchg Hdata.
  destruct (LICENSE_MAP !! suffix path) as [c |] eqn:Hc.
  2: { rewrite (add_header_unsupported _ _ Hc) in Hrun. injection Hrun as <-.
       contradiction. }
  destruct (add_header_returns _ _ _ _ Hc Hrun)
    as (f & t & Hf & Hr & Hd & [[Hl ->] | (Hl & Hw & body & Hb & ->)]).
  { exfalso. apply Hchg. reflexivity. }
  unfold content in Hdata. cbn [fs] in Hdata.
  rewrite lookup_insert_eq in Hdata. injection Hdata as <-.
  apply (encode_no_CR _ _ (encode_written_text _ _ Hc _ _ Hb)).
  apply injected_text_no_CR. exact (LICENSE_MAP_marker _ _ Hc).
Qed.

Lemma changed_file_has_no_CR_witness :
  let before := [ "x"; "013"; "010"; "y"; "013" ]%char in
  let w := World {[ "a.ts"%string := File before true true ]} [] in
  exists data,
    content (add_header "a.ts" w).2 "a.ts" = Some data
    /\ Forall (fun b => b <> byte_of CR) data.
Proof.
  intros before w.
  assert (add_header "a.ts" w = (Return tt, (add_header "a.ts" w).2)) as Hrun
    by (vm_compute; reflexivity).
  assert (content (add_header "a.ts" w).2 "a.ts"
          = Some (header_bytes "//"
                  ++ byte_of LF :: [ "x"; "010"; "y"; "010" ]%char)) as Hdata
    by (vm_compute; reflexivity).
  eexists. split; [ exact Hdata |].
  apply (changed_file_has_no_CR "a.ts" w _ _ Hrun);
    [ vm_compute; discriminate | exact Hdata ].
Defined.

(** ** Whole runs *)

Lemma licensed_file_ext w w' p :
  fs w !! p = fs w' !! p -> licensed_file w p -> licensed_file w' p.
Proof.
  intros Heq (f & lines & Hf & H). exists f, lines. rewrite <- Heq. auto.
Qed.

(** A licensed file is read and left alone. *)
Lemma licensed_file_run w p :
  licensed_file w p ->
  exists w1, add_header p w = (Return tt, w1) /\ fs w1 = fs w
             /\ trace w1
                = trace w ++ (if supported p then [EvOpen p ModeR] else []).
Proof.
  intros (f & lines & Hf & Hr & Hread & Hl). unfold supported.
  destruct (LICENSE_MAP !! suffix p) as [c |] eqn:Hc.
  - unfold read_lines in Hread.
    destruct (Utf8.decode (f_bytes f)) as [t |] eqn:Hd; [| discriminate ].
    injection Hread as <-.
    rewrite (add_header_licensed _ _ _ Hc _ Hf Hr _ Hd Hl). eauto.
  - rewrite (add_header_unsupported _ _ Hc). exists w. rewrite app_nil_r. auto.
Qed.

(** A call that returns on a supported path leaves a licensed file. *)
Lemma licensed_file_after p w w1 :
  supported p = true ->
  add_header p w = (Return tt, w1) -> licensed_file w1 p.
Proof.
  unfold supported. destruct (LICENSE_MAP !! suffix p) as [c |] eqn:Hc;
    [ intros _ | discriminate ].
  intros Hrun. pose proof (LICENSE_MAP_marker _ _ Hc) as Hm.
  destruct (add_header_returns _ _ _ _ Hc Hrun)
    as (f & t & Hf & Hr & Hd & [[Hl ->] | (Hl & Hw & body & Hb & ->)]).
  - exists f, (split_lines (translate_newlines t)). unfold read_lines.
    rewrite Hd. cbn [log fs]. auto.
  - eexists _, _. cbn [fs]. rewrite lookup_insert_eq.
    split; [ reflexivity |]. split; [ reflexivity |]. cbn [f_bytes].
    split; [ exact (read_lines_injected _ _ _ _ Hc Hb) |].
    apply injected_is_licensed, Hm.
Qed.

Lemma licensed_file_kept w p q r w1 :
  licensed_file w p -> add_header q w = (r, w1) -> licensed_file w1 p.
Proof.
  intros Hl Hrun. apply (licensed_file_ext w); [| exact Hl ].
  destruct (decide (p = q)) as [-> | Hne].
  - destruct (licensed_file_run _ _ Hl) as (w1' & Hrun' & Hfs & _).
    rewrite Hrun in Hrun'. injection Hrun' as _ <-. rewrite Hfs. reflexivity.
  - pose proof (add_header_frame q p w Hne) as H. rewrite Hrun in H.
    symmetry. exact H.
Qed.

Lemma licensed_file_kept_by_run files w p r w1 :
  licensed_file w p -> for_each files w = (r, w1) -> licensed_file w1 p.
Proof.
  revert w. induction files as [| q files IH ]; intros w Hl.
  - intros [= <- <-]. exact Hl.
  - rewrite for_each_cons. destruct (add_header q w) as [[[] | e] wa] eqn:Hq.
    + apply IH. exact (licensed_file_kept _ _ _ _ _ Hl Hq).
    + intros [= <- <-]. exact (licensed_file_kept _ _ _ _ _ Hl Hq).
Qed.

Lemma main_exit_0 argv0 files w w1 :
  main (argv0 :: files) w = (0, w1) <-> for_each files w = (Return tt, w1).
Proof.
  rewrite main_cons. destruct (for_each files w) as [[[] | e] w'];
    cbn [fst snd exit_status]; split; intros [=]; subst; reflexivity.
Qed.

Lemma for_each_licenses files w w1 :
  for_each files w = (Return tt, w1) ->
  forall p, p ∈ files -> supported p = true -> licensed_file w1 p.
Proof.
  revert w. induction files as [| q files IH ]; intros w Hrun p Hin Hs.
  - inversion Hin.
  - rewrite for_each_cons in Hrun.
    destruct (add_header q w) as [[[] | e] wa] eqn:Hq; [| discriminate ].
    apply elem_of_cons in Hin. destruct Hin as [-> | Hin].
    + exact (licensed_file_kept_by_run _ _ _ _ _
               (licensed_file_after _ _ _ Hs Hq) Hrun).
    + exact (IH wa Hrun p Hin Hs).
Qed.

(** X6.  When the program exits with status 0, every argument with a
    supported extension names a readable file with the notice among its
    first 15 lines. *)
Theorem successful_run_licenses_its_arguments argv0 files w w1 :
  main (argv0 :: files) w = (0, w1) ->
  forall p, p ∈ files -> supported p = true -> licensed_file w1 p.
Proof.
  rewrite main_exit_0. apply for_each_licenses.
Qed.

Lemma successful_run_licenses_its_arguments_witness :
  let w1 := (main [ "prog"; "a.py"; "notes.txt"; "b.go" ]%string two_files).2 in
  licensed_file w1 "a.py" /\ licensed_file w1 "b.go".
Proof.
  intros w1.
  assert (main [ "prog"; "a.py"; "notes.txt"; "b.go" ]%string two_files = (0, w1))
    as Hrun by (vm_compute; reflexivity).
  split;
    apply (successful_run_licenses_its_arguments _ _ _ _ Hrun);
    try (vm_compute; reflexivity);
    apply list_elem_of_In; vm_compute; tauto.
Defined.

Lemma licensed_files_run files w :
  (forall p, p ∈ files -> supported p = true -> licensed_file w p) ->
  for_each files w
  = (Return tt,
     World (fs w)
           (trace w ++ map (fun p => EvOpen p ModeR)
                           (List.filter supported files))).
Proof.
  revert w. induction files as [| q files IH ]; intros w Hall.
  - cbn. rewrite app_nil_r. destruct w. reflexivity.
  - rewrite for_each_cons. cbn [List.filter].
    destruct (supported q) eqn:Hs.
    + destruct (licensed_file_run w q (Hall q ltac:(left) Hs))
        as (wa & Hq & Hfs & Htr).
      rewrite Hq, Hs in *. rewrite IH.
      * rewrite Hfs, Htr, <- app_assoc. reflexivity.
      * intros p Hin Hp. apply (licensed_file_ext w);
          [ rewrite Hfs; reflexivity | apply Hall; [ right; exact Hin | exact Hp ] ].
    + unfold supported in Hs.
      destruct (LICENSE_MAP !! suffix q) eqn:Hc; [ discriminate |].
      rewrite (add_header_unsupported _ _ Hc). apply IH.
      intros p Hin Hp. apply Hall; [ right; exact Hin | exact Hp ].
Qed.

(** X7.  Running the program again after a run that exited with status 0
    changes no file: the second run exits with status 0, leaves the file
    system as the first run left it, and asks only to read each argument
    with a supported extension, once per occurrence and in order. *)
Theorem second_run_changes_nothing argv0 files w w1 :
  main (argv0 :: files) w = (0, w1) ->
  main (argv0 :: files) w1
  = (0, World (fs w1)
              (trace w1 ++ map (fun p => EvOpen p ModeR)
                               (List.filter supported files))).
Proof.
  intros Hrun%main_exit_0. apply main_exit_0. apply licensed_files_run.
  exact (for_each_licenses _ _ _ Hrun).
Qed.

Lemma second_run_changes_nothing_witness :
  let argv := [ "prog"; "a.py"; "notes.txt"; "b.go"; "a.py" ]%string in
  let w1 := (main argv two_files).2 in
  main argv w1
  = (0, World (fs w1)
              (trace w1 ++ [EvOpen "a.py" ModeR; EvOpen "b.go" ModeR;
                            EvOpen "a.py" ModeR])).
Proof.
  intros argv w1.
  apply (second_run_changes_nothing "prog"
           [ "a.py"; "notes.txt"; "b.go"; "a.py" ]%string two_files w1).
  vm_compute. reflexivity.
Defined.

(** X8.  One run on a list of arguments is the same as a run on a first
    part followed by a run on the rest: when the first part exits with
    status 0, the whole run ends as the run on the rest does from there;
    when it exits with status 1, the whole run ends there. *)
Theorem run_in_batches argv0 argv0' xs ys w st w1 :
  main (argv0 :: xs) w = (st, w1) ->
  main (argv0 :: xs ++ ys) w
  = (if st =? 0 then main (argv0' :: ys) w1 else (1, w1)).
Proof.
  rewrite !main_cons, for_each_app.
  destruct (for_each xs w) as [[[] | e] wa]; cbn [fst snd exit_status];
    intros [= <- <-]; [| reflexivity ].
  reflexivity.
Qed.

Lemma run_in_batches_witness :
  main [ "prog"; "a.py"; "b.go" ]%string two_files
  = main [ "prog"; "b.go" ]%string (main [ "prog"; "a.py" ]%string two_files).2.
Proof.
  apply (run_in_batches "prog" "prog" [ "a.py" ]%string [ "b.go" ]%string
           two_files 0 (main [ "prog"; "a.py" ]%string two_files).2).
  vm_compute. reflexivity.
Defined.

(** X9.  Arguments whose extension is not in the table can be dropped from
    the command line: the run has the same exit status and ends in the same
    world, trace included. *)
Theorem unsupported_arguments_are_inert argv0 files w :
  main (argv0 :: files) w = main (argv0 :: List.filter supported files) w.
Proof.
  rewrite !main_cons.
  assert (for_each files w = for_each (List.filter supported files) w) as ->;
    [| reflexivity ].
  revert w. induction files as [| q files IH ]; intros w; [ reflexivity |].
  cbn [List.filter]. destruct (supported q) eqn:Hs.
  - rewrite !for_each_cons.
    destruct (add_header q w) as [[[] | e] wa]; [ apply IH | reflexivity ].
  - unfold supported in Hs.
    destruct (LICENSE_MAP !! suffix q) eqn:Hc; [ discriminate |].
    rewrite for_each_cons, (add_header_unsupported _ _ Hc). apply IH.
Qed.

(** ** The order of the arguments *)







(** ** Directories *)

Section PathFacts.

Lemma append_assoc (a b c : string) : (a +:+ b) +:+ c = a +:+ b +:+ c.
Proof.
  induction a as [| x a IH ]; [ reflexivity |].
  change (String x ((a +:+ b) +:+ c) = String x (a +:+ b +:+ c)).
  rewrite IH. reflexivity.
Qed.

Lemma split_sep_not_nil s : split_sep s <> [].
Proof.
  destruct s as [| c r ]; cbn [split_sep]; [ discriminate |].
  destruct (Ascii.eqb c "/"); [ discriminate |].
  destruct (split_sep r); discriminate.
Qed.

Lemma split_sep_no_slash s : has_slash s = false -> split_sep s = [s].
Proof.
  induction s as [| c r IH ]; [ reflexivity |].
  cbn [has_slash split_sep]. intros [Hc Hr]%orb_false_iff.
  rewrite Hc, (IH Hr). reflexivity.
Qed.

Lemma split_sep_join a b :
  split_sep (a +:+ "/" +:+ b) = split_sep a ++ split_sep b.
Proof.
  change ("/" +:+ b) with (String "/" b).
  induction a as [| c r IH ]; [ reflexivity |].
  change (String c r +:+ String "/" b) with (String c (r +:+ String "/" b)).
  cbn [split_sep]. rewrite IH. destruct (Ascii.eqb c "/"); [ reflexivity |].
  pose proof (split_sep_not_nil r) as Hr.
  destruct (split_sep r) as [| x xs ]; [ contradiction | reflexivity ].
Qed.

Lemma path_parts_join a b : path_parts (a +:+ "/" +:+ b) = path_parts a ++ path_parts b.
Proof. unfold path_parts. rewrite split_sep_join. apply List.filter_app. Qed.

Lemma path_name_join dir name :
  has_slash name = false -> name <> EmptyString -> name <> "."%string ->
  path_name (dir +:+ "/" +:+ name) = name.
Proof.
  intros Hs H0 H1. unfold path_name. rewrite path_parts_join.
  unfold path_parts at 2. rewrite (split_sep_no_slash _ Hs). cbn [List.filter].
  destruct (String.eqb_spec name EmptyString); [ contradiction |].
  destruct (String.eqb_spec name "."); [ contradiction |].
  cbn [negb andb]. apply List.last_last.
Qed.

Lemma path_name_trailing_slash p : path_name (p +:+ "/") = path_name p.
Proof.
  unfold path_name. change (p +:+ "/") with (p +:+ "/" +:+ EmptyString).
  rewrite path_parts_join. cbn. rewrite app_nil_r. reflexivity.
Qed.

End PathFacts.

(** X11.  The directory part of a path has no part in the dispatch: for a
    filename without a separator (other than the empty name and [.]), the
    extension of [dir/name] is the extension of [name], whatever dots the
    directory names hold; and a trailing separator changes nothing. *)
Theorem suffix_ignores_directories dir name :
  has_slash name = false ->
  name <> EmptyString ->
  name <> "."%string ->
  path_name (dir +:+ "/" +:+ name) = name
  /\ suffix (dir +:+ "/" +:+ name) = suffix name
  /\ suffix (dir +:+ "/" +:+ name +:+ "/") = suffix name.
Proof.
  intros Hs H0 H1.
  assert (path_name name = name) as Hname.
  { unfold path_name, path_parts. rewrite (split_sep_no_slash _ Hs).
    cbn [List.filter].
    destruct (String.eqb_spec name EmptyString); [ contradiction |].
    destruct (String.eqb_spec name "."); [ contradiction |]. reflexivity. }
  pose proof (path_name_join dir name Hs H0 H1) as Hjoin.
  split; [ exact Hjoin |]. split.
  - unfold suffix. rewrite Hjoin, Hname. reflexivity.
  - unfold suffix.
    replace (dir +:+ "/" +:+ name +:+ "/")
      with ((dir +:+ "/" +:+ name) +:+ "/").
    + rewrite path_name_trailing_slash, Hjoin, Hname. reflexivity.
    + rewrite !append_assoc. reflexivity.
Qed.

Lemma suffix_ignores_directories_witness :
  suffix "pkg.d/v1.2/main.go" = suffix "main.go"
  /\ suffix "pkg.d/v1.2/main.go" = ".go"%string.
Proof.
  split; [| vm_compute; reflexivity ].
  apply (suffix_ignores_directories "pkg.d/v1.2" "main.go");
    [ vm_compute; reflexivity | discriminate | discriminate ].
Defined.

(** X12.  The notice is recognised whatever comment syntax it was written
    in: the content a call left at one supported path, found at any other
    supported path in a readable file, is left alone there -- the call
    returns having asked only to read the file. *)
Theorem header_recognised_across_extensions p w w1 q w' f :
  supported p = true ->
  add_header p w = (Return tt, w1) ->
  supported q = true ->
  fs w' !! q = Some f ->
  f_readable f = true ->
  content w1 p = Some (f_bytes f) ->
  add_header q w' = (Return tt, log (EvOpen q ModeR) w').
Proof.
  intros Hp Hrun Hq Hf Hr Hsame.
  destruct (licensed_file_after _ _ _ Hp Hrun) as (f1 & lines & Hf1 & _ & Hread & Hl).
  unfold content in Hsame. rewrite Hf1 in Hsame. injection Hsame as Hsame.
  rewrite Hsame in Hread.
  destruct (licensed_file_run w' q) as (w2 & Hrun' & Hfs & Htr).
  { exists f, lines. auto. }
  rewrite Hrun'. f_equal. destruct w2 as [fs2 tr2]. cbn [fs trace] in *.
  rewrite Hq in Htr. subst. reflexivity.
Qed.

Lemma header_recognised_across_extensions_witness :
  let data := default [] (content (add_header "a.py" scenario_a).2 "a.py") in
  let w' := World {[ "moved.ts"%string := File data true false ]} [] in
  add_header "moved.ts" w' = (Return tt, log (EvOpen "moved.ts" ModeR) w').
Proof.
  intros data w'.
  apply (header_recognised_across_extensions "a.py" scenario_a
           (add_header "a.py" scenario_a).2 "moved.ts" w' (File data true false));
    vm_compute; reflexivity.
Defined.
